(** * Robotic arm simulator: motion-and-control engine

    A shallow embedding of the repository's control code:
    - [utils/kinematics.ts] ([solveIK]),
    - the [RobotArm] scene graph (the kinematic chain that the solver
      inverts),
    - the two [RobotController] pages: the single-block page (module
      [Single]: one block, a [hasBlock] flag, telemetry capacity 50)
      and the multi-block page with teach/replay (module [Multi]:
      a block map, [attachedBlockId], telemetry capacity 40).

    Numbers.  A JavaScript number is modelled as an exact real, extended
    with the three special values the code can produce ([Infinity],
    [-Infinity], [NaN]); rounding and overflow are not modelled, and the
    zero of the model is the positive zero.  Coordinates and the frame
    delta are finite reals; joint angles and telemetry values are
    extended numbers, because [Math.acos] and [/] can produce special
    values from finite inputs.

    React.  A [useState] value read inside a handler or a [useFrame]
    callback is the value of the last render; all setters called by one
    handler take effect together at the next render (React 18 batching).
    A [useRef] cell is read and written in place.  Each handler is thus
    a function from the state of the last render to the next one. *)

From Stdlib Require Import Reals Lra Lia List Bool Arith PeanoNat.
Import ListNotations.

Open Scope R_scope.

(* ================================================================= *)
(** * Extended numbers *)

Module JSNum.

Inductive jsnum : Type :=
| Num (r : R)
| PosInf
| NegInf
| NaN.

Definition jneg (a : jsnum) : jsnum :=
  match a with
  | Num r => Num (- r)
  | PosInf => NegInf
  | NegInf => PosInf
  | NaN => NaN
  end.

Definition jadd (a b : jsnum) : jsnum :=
  match a, b with
  | NaN, _ | _, NaN => NaN
  | Num x, Num y => Num (x + y)
  | PosInf, NegInf | NegInf, PosInf => NaN
  | PosInf, _ | _, PosInf => PosInf
  | NegInf, _ | _, NegInf => NegInf
  end.

Definition jsub (a b : jsnum) : jsnum := jadd a (jneg b).

(** The sign of an infinity scaled by a finite factor; zero times
    infinity is [NaN]. *)
Definition scaleInf (positive : bool) (r : R) : jsnum :=
  if Rlt_dec 0 r then (if positive then PosInf else NegInf)
  else if Rlt_dec r 0 then (if positive then NegInf else PosInf)
  else NaN.

Definition jmul (a b : jsnum) : jsnum :=
  match a, b with
  | NaN, _ | _, NaN => NaN
  | Num x, Num y => Num (x * y)
  | PosInf, Num y | Num y, PosInf => scaleInf true y
  | NegInf, Num y | Num y, NegInf => scaleInf false y
  | PosInf, PosInf | NegInf, NegInf => PosInf
  | PosInf, NegInf | NegInf, PosInf => NegInf
  end.

(** Division.  A finite non-zero number over zero is an infinity of the
    sign of the numerator, zero over zero is [NaN]. *)
Definition jdiv (a b : jsnum) : jsnum :=
  match a, b with
  | NaN, _ | _, NaN => NaN
  | Num x, Num y =>
      if Req_dec_T y 0 then
        if Rlt_dec 0 x then PosInf
        else if Rlt_dec x 0 then NegInf
        else NaN
      else Num (x / y)
  | Num _, PosInf | Num _, NegInf => Num 0
  | PosInf, Num y => if Rlt_dec y 0 then NegInf else PosInf
  | NegInf, Num y => if Rlt_dec y 0 then PosInf else NegInf
  | PosInf, PosInf | PosInf, NegInf | NegInf, PosInf | NegInf, NegInf => NaN
  end.

Definition jabs (a : jsnum) : jsnum :=
  match a with
  | Num r => Num (Rabs r)
  | PosInf | NegInf => PosInf
  | NaN => NaN
  end.

(** [Math.acos]: [NaN] outside the interval from -1 to 1. *)
Definition jacos (a : jsnum) : jsnum :=
  match a with
  | Num r => if Rle_dec (-1) r then
               if Rle_dec r 1 then Num (acos r) else NaN
             else NaN
  | _ => NaN
  end.

(** [Math.cos]: [NaN] at the infinities. *)
Definition jcos (a : jsnum) : jsnum :=
  match a with
  | Num r => Num (cos r)
  | _ => NaN
  end.

(** [Math.atan2 y x] on finite arguments (the zero is the positive one). *)
Definition atan2 (y x : R) : R :=
  if Rlt_dec 0 x then atan (y / x)
  else if Rlt_dec x 0 then
    if Rle_dec 0 y then atan (y / x) + PI else atan (y / x) - PI
  else if Rlt_dec 0 y then PI / 2
  else if Rlt_dec y 0 then - (PI / 2)
  else 0.

End JSNum.
Export JSNum.

(* ================================================================= *)
(** * Vectors (three.js [Vector3] on finite coordinates) *)

Module Vector3.

Record Vec3 : Type := vec3 { vx : R; vy : R; vz : R }.

Definition add (a b : Vec3) : Vec3 :=
  vec3 (vx a + vx b) (vy a + vy b) (vz a + vz b).

Definition subVectors (a b : Vec3) : Vec3 :=
  vec3 (vx a - vx b) (vy a - vy b) (vz a - vz b).

Definition multiplyScalar (v : Vec3) (s : R) : Vec3 :=
  vec3 (vx v * s) (vy v * s) (vz v * s).

(** The method [length ()]. *)
Definition vlength (v : Vec3) : R :=
  sqrt (vx v * vx v + vy v * vy v + vz v * vz v).

(** [normalize] is [divideScalar (length () || 1)]: the zero vector is
    divided by one. *)
Definition normalize (v : Vec3) : Vec3 :=
  let l := vlength v in
  multiplyScalar v (1 / (if Req_dec_T l 0 then 1 else l)).

Definition distanceTo (a b : Vec3) : R :=
  let dx := vx a - vx b in
  let dy := vy a - vy b in
  let dz := vz a - vz b in
  sqrt (dx * dx + dy * dy + dz * dz).



End Vector3.
Export Vector3.

(* ================================================================= *)
(** * Joint angles, the solver and the kinematic chain *)

Record JointAngles : Type :=
  mkAngles { base : jsnum; shoulder : jsnum; elbow : jsnum }.

Module Kinematics.

Definition L1 : R := 1.
Definition L2 : R := 3.
Definition L3 : R := 2.5.

(** Horizontal reach, and distance from the shoulder pivot to the target,
    as [solveIK] computes them. *)
Definition reach (x z : R) : R := sqrt (x * x + z * z).

Definition shoulderDist (x y z : R) : R :=
  let r := reach x z in
  let dy := y - L1 in
  sqrt (r * r + dy * dy).

Definition solveIK (x y z : R) : option JointAngles :=
  let theta1 := atan2 x z in
  let r := sqrt (x * x + z * z) in
  let dy := y - L1 in
  let h := sqrt (r * r + dy * dy) in
  if Rlt_dec (L2 + L3) h then None
  else
    let phi1 := jacos (jdiv (Num (L2 * L2 + h * h - L3 * L3))
                            (Num (2 * L2 * h))) in
    let phi2 := atan2 dy r in
    let theta2 := jsub (Num (PI / 2)) (jadd phi1 (Num phi2)) in
    let phi3 := jacos (jdiv (Num (L2 * L2 + L3 * L3 - h * h))
                            (Num (2 * L2 * L3))) in
    let theta3 := jsub (Num PI) phi3 in
    Some (mkAngles (Num theta1) theta2 theta3).




End Kinematics.

(* ================================================================= *)
(** * Parts shared by the two controller pages *)

Module Engine.

Import Vector3.

(** [lerp start end speed] of the pages' math helper. *)
Definition lerp (start end_ speed : jsnum) : jsnum :=
  jadd start (jmul (jsub end_ start) speed).

(** The interpolation step of [useFrame], on the three joints. *)
Definition lerpAngles (cur want : JointAngles) : JointAngles :=
  mkAngles (lerp (base cur) (base want) (Num 0.1))
           (lerp (shoulder cur) (shoulder want) (Num 0.1))
           (lerp (elbow cur) (elbow want) (Num 0.1)).

(** The smoothed value after [n] frames with a constant desired value. *)
Fixpoint smooth (n : nat) (actual desired : jsnum) : jsnum :=
  match n with
  | O => actual
  | S n' => lerp (smooth n' actual desired) desired (Num 0.1)
  end.

Definition zeroAngles : JointAngles := mkAngles (Num 0) (Num 0) (Num 0).

Inductive Phase : Type :=
| IDLE | APPROACH | DESCEND | LIFT | MOVE_TO_ZONE | LOWER_TO_DROP | RETRACT.

Definition phase_eqb (a b : Phase) : bool :=
  match a, b with
  | IDLE, IDLE | APPROACH, APPROACH | DESCEND, DESCEND | LIFT, LIFT
  | MOVE_TO_ZONE, MOVE_TO_ZONE | LOWER_TO_DROP, LOWER_TO_DROP
  | RETRACT, RETRACT => true
  | _, _ => false
  end.

(** A telemetry point [{ time, velocity, torque }]. *)
Record Sample : Type :=
  mkSample { time : nat; velocity : jsnum; torque : jsnum }.

(** The updater passed to [setTelemetryData]: append, then [shift] when
    the new array is longer than the capacity. *)
Definition pushSample (capacity : nat) (prev : list Sample) (x : Sample)
  : list Sample :=
  let newData := prev ++ [x] in
  if capacity <? length newData then tl newData else newData.

(** The sample of one telemetry tick: shoulder velocity as a finite
    difference over [delta], and the torque proxy. *)
Definition shoulderVelocity (now before : JointAngles) (delta : R) : jsnum :=
  jabs (jdiv (jsub (shoulder now) (shoulder before)) (Num delta)).

Definition totalTorque (now : JointAngles) (carrying : bool) : jsnum :=
  jabs (jadd (jcos (shoulder now)) (Num (if carrying then 1.5 else 0))).

Definition takeSample (count : nat) (now before : JointAngles) (delta : R)
  (carrying : bool) : Sample :=
  mkSample count (shoulderVelocity now before delta) (totalTorque now carrying).

(** What a phase does to the grip flags when it ends. *)
Definition gripAfter (p : Phase) (flag : bool) : bool :=
  match p with
  | DESCEND => true
  | LOWER_TO_DROP => false
  | _ => flag
  end.

(** A history whose timestamps are those of the last sampling ticks:
    with [count] frames run, the ticks were at 5, 10, ..., and the
    history holds the latest of them, as many as fit the capacity. *)
Definition stampedHistory (capacity count : nat) (history : list Sample)
  : Prop :=
  length history = Nat.min (count / 5) capacity /\
  map time history
  = map (fun i => (5 * i)%nat)
        (seq (count / 5 - length history + 1) (length history)).

(** The refs of one [Block] component and its [useFrame] callback: an
    attached block copies the position handed down by the controller, a
    free block falls by an accumulating velocity and rests on the floor. *)
Record BlockBody : Type := mkBody { position : Vec3; velocityY : R }.

Definition blockFrame (isAttached : bool) (targetPosition : Vec3)
  (b : BlockBody) : BlockBody :=
  if isAttached then mkBody targetPosition 0
  else
    let b1 :=
      if Rlt_dec 0.5 (vy (position b)) then
        let v := velocityY b - 0.02 in
        mkBody (vec3 (vx (position b)) (vy (position b) + v) (vz (position b))) v
      else b in
    if Rle_dec (vy (position b1)) 0.5 then
      mkBody (vec3 (vx (position b1)) 0.5 (vz (position b1))) 0
    else b1.

(** The position the controller hands to its blocks. *)
Definition carriedPosition (target : Vec3) : Vec3 :=
  vec3 (vx target) (vy target - 0.75) (vz target).

(** The order of the phases of one pick-and-place cycle, as the
    [switch] of the frame chains them. *)
Definition followingPhase (p : Phase) : Phase :=
  match p with
  | IDLE => IDLE
  | APPROACH => DESCEND
  | DESCEND => LIFT
  | LIFT => MOVE_TO_ZONE
  | MOVE_TO_ZONE => LOWER_TO_DROP
  | LOWER_TO_DROP => RETRACT
  | RETRACT => IDLE
  end.

End Engine.
Export Engine.

(* ================================================================= *)
(** * The single-block page *)

Module Single.

Import Vector3 Kinematics.

Record State : Type := mkState {
  (* useState *)
  ikTarget : Vec3;
  smoothAngles : JointAngles;
  isGripping : bool;
  hasBlock : bool;
  autoPhase : Phase;
  telemetryData : list Sample;
  (* useRef *)
  desiredAngles : JointAngles;
  prevAngles : JointAngles;
  blockPosRef : Vec3;
  frameCount : nat;
  (* the refs of the one Block component *)
  body : BlockBody
}.

Definition initial : State :=
  mkState (vec3 2 2 2) zeroAngles false false IDLE []
          zeroAngles zeroAngles (vec3 4 0.5 4) 0
          (mkBody (vec3 4 0.5 4) 0).

Definition setIkTarget (v : Vec3) (s : State) : State :=
  mkState v (smoothAngles s) (isGripping s) (hasBlock s) (autoPhase s)
    (telemetryData s) (desiredAngles s) (prevAngles s) (blockPosRef s)
    (frameCount s) (body s).

Definition setSmoothAngles (v : JointAngles) (s : State) : State :=
  mkState (ikTarget s) v (isGripping s) (hasBlock s) (autoPhase s)
    (telemetryData s) (desiredAngles s) (prevAngles s) (blockPosRef s)
    (frameCount s) (body s).

Definition setIsGripping (v : bool) (s : State) : State :=
  mkState (ikTarget s) (smoothAngles s) v (hasBlock s) (autoPhase s)
    (telemetryData s) (desiredAngles s) (prevAngles s) (blockPosRef s)
    (frameCount s) (body s).

Definition setHasBlock (v : bool) (s : State) : State :=
  mkState (ikTarget s) (smoothAngles s) (isGripping s) v (autoPhase s)
    (telemetryData s) (desiredAngles s) (prevAngles s) (blockPosRef s)
    (frameCount s) (body s).

Definition setAutoPhase (v : Phase) (s : State) : State :=
  mkState (ikTarget s) (smoothAngles s) (isGripping s) (hasBlock s) v
    (telemetryData s) (desiredAngles s) (prevAngles s) (blockPosRef s)
    (frameCount s) (body s).

Definition setTelemetryData (v : list Sample) (s : State) : State :=
  mkState (ikTarget s) (smoothAngles s) (isGripping s) (hasBlock s)
    (autoPhase s) v (desiredAngles s) (prevAngles s) (blockPosRef s)
    (frameCount s) (body s).

Definition putDesiredAngles (v : JointAngles) (s : State) : State :=
  mkState (ikTarget s) (smoothAngles s) (isGripping s) (hasBlock s)
    (autoPhase s) (telemetryData s) v (prevAngles s) (blockPosRef s)
    (frameCount s) (body s).

Definition putPrevAngles (v : JointAngles) (s : State) : State :=
  mkState (ikTarget s) (smoothAngles s) (isGripping s) (hasBlock s)
    (autoPhase s) (telemetryData s) (desiredAngles s) v (blockPosRef s)
    (frameCount s) (body s).

Definition putBlockPosRef (v : Vec3) (s : State) : State :=
  mkState (ikTarget s) (smoothAngles s) (isGripping s) (hasBlock s)
    (autoPhase s) (telemetryData s) (desiredAngles s) (prevAngles s) v
    (frameCount s) (body s).

Definition putFrameCount (v : nat) (s : State) : State :=
  mkState (ikTarget s) (smoothAngles s) (isGripping s) (hasBlock s)
    (autoPhase s) (telemetryData s) (desiredAngles s) (prevAngles s)
    (blockPosRef s) v (body s).

Definition putBody (v : BlockBody) (s : State) : State :=
  mkState (ikTarget s) (smoothAngles s) (isGripping s) (hasBlock s)
    (autoPhase s) (telemetryData s) (desiredAngles s) (prevAngles s)
    (blockPosRef s) (frameCount s) v.
(** In the definitions below [r] is the state of the last render, which
    a callback reads, and [s] is the state it is building. *)

Definition handleTargetMove (newPos : Vec3) (s : State) : State :=
  let s := setIkTarget newPos s in
  match solveIK (vx newPos) (vy newPos) (vz newPos) with
  | Some solution => putDesiredAngles solution s
  | None => s
  end.

Definition startAutoSequence (r : State) : State :=
  if hasBlock r then r (* alert, return *)
  else setAutoPhase APPROACH r.

Definition toggleGripper (r : State) : State :=
  if hasBlock r then setIsGripping false (setHasBlock false r)
  else
    let s := setIsGripping true r in
    if Rlt_dec (distanceTo (ikTarget r) (blockPosRef r)) 1.5
    then setHasBlock true s else s.

(** The [switch] of the auto sequence: the destination of the phase, the
    next phase, and the setters the phase calls. *)
Definition autoSwitch (r s : State) : Vec3 * Phase * State :=
  let threshold := 0.1 in
  let blk := blockPosRef r in
  match autoPhase r with
  | IDLE => (vec3 0 0 0, IDLE, s)
  | APPROACH =>
      let targetDest := vec3 (vx blk) (vy blk + 2) (vz blk) in
      if Rlt_dec (distanceTo (ikTarget r) targetDest) threshold
      then (targetDest, DESCEND, s) else (targetDest, APPROACH, s)
  | DESCEND =>
      let targetDest := vec3 (vx blk) (vy blk) (vz blk) in
      if Rlt_dec (distanceTo (ikTarget r) targetDest) threshold
      then (targetDest, LIFT, setHasBlock true (setIsGripping true s))
      else (targetDest, DESCEND, s)
  | LIFT =>
      let targetDest := vec3 (vx blk) 3 (vz blk) in
      if Rlt_dec (distanceTo (ikTarget r) targetDest) threshold
      then (targetDest, MOVE_TO_ZONE, s) else (targetDest, LIFT, s)
  | MOVE_TO_ZONE =>
      let targetDest := vec3 (-4) 3 0 in
      if Rlt_dec (distanceTo (ikTarget r) targetDest) threshold
      then (targetDest, LOWER_TO_DROP, s) else (targetDest, MOVE_TO_ZONE, s)
  | LOWER_TO_DROP =>
      let targetDest := vec3 (-4) 0.8 0 in
      if Rlt_dec (distanceTo (ikTarget r) targetDest) threshold
      then (targetDest, RETRACT, setHasBlock false (setIsGripping false s))
      else (targetDest, LOWER_TO_DROP, s)
  | RETRACT =>
      let targetDest := vec3 0 3 0 in
      if Rlt_dec (distanceTo (ikTarget r) targetDest) threshold
      then (targetDest, RETRACT, setAutoPhase IDLE s)
      else (targetDest, RETRACT, s)
  end.

Definition autoSequence (delta : R) (r s : State) : State :=
  if phase_eqb (autoPhase r) IDLE then s
  else
    let speed := 6 * delta in
    let '(targetDest, nextPhase, s) := autoSwitch r s in
    let direction := normalize (subVectors targetDest (ikTarget r)) in
    let moveStep := multiplyScalar direction speed in
    let s := handleTargetMove (add (ikTarget r) moveStep) s in
    if phase_eqb nextPhase (autoPhase r) then s else setAutoPhase nextPhase s.

(** The telemetry tick: every fifth frame a sample is appended, and the
    history keeps the last 50. *)
Definition telemetry (delta : R) (count : nat) (newAngles : JointAngles)
  (r s : State) : State :=
  if (count mod 5 =? 0)%nat then
    setTelemetryData
      (pushSample 50 (telemetryData s)
         (takeSample count newAngles (prevAngles r) delta (hasBlock r))) s
  else s.

(** The controller's [useFrame] callback. *)
Definition frame (delta : R) (r : State) : State :=
  let newAngles := lerpAngles (smoothAngles r) (desiredAngles r) in
  let s := setSmoothAngles newAngles r in
  let count := S (frameCount r) in
  let s := putFrameCount count s in
  let s := telemetry delta count newAngles r s in
  let s := putPrevAngles newAngles s in
  autoSequence delta r s.

(** The block's [useFrame] callback, with its [onRest] report. *)
Definition blockTick (r : State) : State :=
  let b := blockFrame (hasBlock r) (carriedPosition (ikTarget r)) (body r) in
  putBlockPosRef (position b) (putBody b r).

(** What can happen between two renders.  A control that is not rendered
    or is disabled does nothing: the target handle exists only while the
    phase is [IDLE], the AUTO SEQ button is disabled while the sequence
    runs or a block is held, the gripper button while the sequence runs. *)
Inductive Op : Type :=
| Frame (delta : R)
| BlockTick
| DragTarget (p : Vec3)
| ClickAutoSeq
| ClickGripper.

Definition isAuto (r : State) : bool := negb (phase_eqb (autoPhase r) IDLE).

Definition step (r : State) (o : Op) : State :=
  match o with
  | Frame delta => frame delta r
  | BlockTick => blockTick r
  | DragTarget p => if isAuto r then r else handleTargetMove p r
  | ClickAutoSeq => if isAuto r || hasBlock r then r else startAutoSequence r
  | ClickGripper => if isAuto r then r else toggleGripper r
  end.

Definition run (ops : list Op) (r : State) : State := fold_left step ops r.

(** One tick of the render loop: the block's callback, then the
    controller's, both on the state of the last render. *)
Definition tick (delta : R) (r : State) : State :=
  step (step r BlockTick) (Frame delta).

(** The destination of the running phase, as the [switch] sets it, and
    the test that ends the phase. *)
Definition subTarget (r : State) : Vec3 := fst (fst (autoSwitch r r)).

Definition arrived (r : State) : Prop :=
  distanceTo (ikTarget r) (subTarget r) < 0.1.

(** What holds while a phase of the sequence runs: the block rests on the
    floor while the arm approaches and descends; it is held, with the
    target straight above where it was grabbed, while the arm lifts; it is
    held on the way to the drop zone; and once released it is at or below
    floor level with no velocity while the arm retracts. *)
Definition resting (bx bz : R) (r : State) : Prop :=
  hasBlock r = false /\ body r = mkBody (vec3 bx 0.5 bz) 0.

Definition lifting (tx tz : R) (r : State) : Prop :=
  hasBlock r = true /\ isGripping r = true /\
  vx (ikTarget r) = tx /\ vz (ikTarget r) = tz.

Definition holding (r : State) : Prop :=
  hasBlock r = true /\ isGripping r = true.

Definition dropped (x z : R) (r : State) : Prop :=
  hasBlock r = false /\ isGripping r = false /\
  vx (position (body r)) = x /\ vz (position (body r)) = z /\
  vy (position (body r)) <= 0.5 /\ velocityY (body r) = 0.

(** Properties of a state that the proofs below carry along a run. *)

Definition gripInv (s : State) : Prop :=
  hasBlock s = true -> isGripping s = true.

Definition telemetryInv (s : State) : Prop :=
  (length (telemetryData s) <= 50)%nat.

(** The arm as the page loads it: idle, empty-handed, all angles zero. *)
Definition atRest (s : State) : Prop :=
  autoPhase s = IDLE /\ hasBlock s = false /\
  smoothAngles s = zeroAngles /\ desiredAngles s = zeroAngles /\
  prevAngles s = zeroAngles.

End Single.

(* ================================================================= *)
(** * The multi-block page with teach and replay *)

Module Multi.

Import Vector3 Kinematics.

Inductive Mode : Type := MANUAL | AUTO_PICK | REPLAY.

Definition mode_eqb (a b : Mode) : bool :=
  match a, b with
  | MANUAL, MANUAL | AUTO_PICK, AUTO_PICK | REPLAY, REPLAY => true
  | _, _ => false
  end.

Record Waypoint : Type := mkWaypoint { pos : Vec3; grip : bool }.

Record BlockType : Type := mkBlock { id : nat; initialPos : Vec3 }.

Definition INITIAL_BLOCKS : list BlockType :=
  [ mkBlock 1 (vec3 4 0.5 4); mkBlock 2 (vec3 4 0.5 (-2)) ].

(** The [Map] of block positions, in insertion order ([forEach] visits
    it in that order; [set] on a present key keeps its place). *)
Fixpoint mapGet (k : nat) (m : list (nat * Vec3)) : option Vec3 :=
  match m with
  | [] => None
  | (k', v) :: m' => if (k' =? k)%nat then Some v else mapGet k m'
  end.

Fixpoint mapSet (k : nat) (v : Vec3) (m : list (nat * Vec3))
  : list (nat * Vec3) :=
  match m with
  | [] => [(k, v)]
  | (k', v') :: m' =>
      if (k' =? k)%nat then (k', v) :: m' else (k', v') :: mapSet k v m'
  end.

(** Truthiness of a [number | null]: [null] and [0] are falsy. *)
Definition truthy (i : option nat) : bool :=
  match i with
  | Some (S _) => true
  | _ => false
  end.

(** [attachedId === data.id] of the Block component. *)
Definition isAttached (attachedId : option nat) (b : BlockType) : bool :=
  match attachedId with
  | Some i => (i =? id b)%nat
  | None => false
  end.

Record State : Type := mkState {
  (* useState *)
  ikTarget : Vec3;
  smoothAngles : JointAngles;
  isGripping : bool;
  attachedBlockId : option nat;
  mode : Mode;
  autoPhase : Phase;
  resetKey : nat;
  waypoints : list Waypoint;
  replayIndex : nat;
  telemetryData : list Sample;
  (* useRef *)
  desiredAngles : JointAngles;
  blockPositions : list (nat * Vec3);
  prevAngles : JointAngles;
  frameCount : nat;
  targetBlockIdForAuto : nat;
  (* the refs of the Block components, one per entry of INITIAL_BLOCKS *)
  bodies : list (BlockType * BlockBody)
}.

Definition initialBodies : list (BlockType * BlockBody) :=
  map (fun b => (b, mkBody (initialPos b) 0)) INITIAL_BLOCKS.

Definition initial : State :=
  mkState (vec3 2 2 2) zeroAngles false None MANUAL IDLE 0 [] 0 []
          zeroAngles [] zeroAngles 0 1 initialBodies.

Definition setIkTarget (v : Vec3) (s : State) : State :=
  mkState v (smoothAngles s) (isGripping s) (attachedBlockId s) (mode s)
    (autoPhase s) (resetKey s) (waypoints s) (replayIndex s)
    (telemetryData s) (desiredAngles s) (blockPositions s) (prevAngles s)
    (frameCount s) (targetBlockIdForAuto s) (bodies s).

Definition setSmoothAngles (v : JointAngles) (s : State) : State :=
  mkState (ikTarget s) v (isGripping s) (attachedBlockId s) (mode s)
    (autoPhase s) (resetKey s) (waypoints s) (replayIndex s)
    (telemetryData s) (desiredAngles s) (blockPositions s) (prevAngles s)
    (frameCount s) (targetBlockIdForAuto s) (bodies s).

Definition setIsGripping (v : bool) (s : State) : State :=
  mkState (ikTarget s) (smoothAngles s) v (attachedBlockId s) (mode s)
    (autoPhase s) (resetKey s) (waypoints s) (replayIndex s)
    (telemetryData s) (desiredAngles s) (blockPositions s) (prevAngles s)
    (frameCount s) (targetBlockIdForAuto s) (bodies s).

Definition setAttachedBlockId (v : option nat) (s : State) : State :=
  mkState (ikTarget s) (smoothAngles s) (isGripping s) v (mode s)
    (autoPhase s) (resetKey s) (waypoints s) (replayIndex s)
    (telemetryData s) (desiredAngles s) (blockPositions s) (prevAngles s)
    (frameCount s) (targetBlockIdForAuto s) (bodies s).

Definition setMode (v : Mode) (s : State) : State :=
  mkState (ikTarget s) (smoothAngles s) (isGripping s) (attachedBlockId s)
    v (autoPhase s) (resetKey s) (waypoints s) (replayIndex s)
    (telemetryData s) (desiredAngles s) (blockPositions s) (prevAngles s)
    (frameCount s) (targetBlockIdForAuto s) (bodies s).

Definition setAutoPhase (v : Phase) (s : State) : State :=
  mkState (ikTarget s) (smoothAngles s) (isGripping s) (attachedBlockId s)
    (mode s) v (resetKey s) (waypoints s) (replayIndex s)
    (telemetryData s) (desiredAngles s) (blockPositions s) (prevAngles s)
    (frameCount s) (targetBlockIdForAuto s) (bodies s).

Definition setResetKey (v : nat) (s : State) : State :=
  mkState (ikTarget s) (smoothAngles s) (isGripping s) (attachedBlockId s)
    (mode s) (autoPhase s) v (waypoints s) (replayIndex s)
    (telemetryData s) (desiredAngles s) (blockPositions s) (prevAngles s)
    (frameCount s) (targetBlockIdForAuto s) (bodies s).

Definition setWaypoints (v : list Waypoint) (s : State) : State :=
  mkState (ikTarget s) (smoothAngles s) (isGripping s) (attachedBlockId s)
    (mode s) (autoPhase s) (resetKey s) v (replayIndex s)
    (telemetryData s) (desiredAngles s) (blockPositions s) (prevAngles s)
    (frameCount s) (targetBlockIdForAuto s) (bodies s).

Definition setReplayIndex (v : nat) (s : State) : State :=
  mkState (ikTarget s) (smoothAngles s) (isGripping s) (attachedBlockId s)
    (mode s) (autoPhase s) (resetKey s) (waypoints s) v (telemetryData s)
    (desiredAngles s) (blockPositions s) (prevAngles s) (frameCount s)
    (targetBlockIdForAuto s) (bodies s).

Definition setTelemetryData (v : list Sample) (s : State) : State :=
  mkState (ikTarget s) (smoothAngles s) (isGripping s) (attachedBlockId s)
    (mode s) (autoPhase s) (resetKey s) (waypoints s) (replayIndex s) v
    (desiredAngles s) (blockPositions s) (prevAngles s) (frameCount s)
    (targetBlockIdForAuto s) (bodies s).

Definition putDesiredAngles (v : JointAngles) (s : State) : State :=
  mkState (ikTarget s) (smoothAngles s) (isGripping s) (attachedBlockId s)
    (mode s) (autoPhase s) (resetKey s) (waypoints s) (replayIndex s)
    (telemetryData s) v (blockPositions s) (prevAngles s) (frameCount s)
    (targetBlockIdForAuto s) (bodies s).

Definition putBlockPositions (v : list (nat * Vec3)) (s : State) : State :=
  mkState (ikTarget s) (smoothAngles s) (isGripping s) (attachedBlockId s)
    (mode s) (autoPhase s) (resetKey s) (waypoints s) (replayIndex s)
    (telemetryData s) (desiredAngles s) v (prevAngles s) (frameCount s)
    (targetBlockIdForAuto s) (bodies s).

Definition putPrevAngles (v : JointAngles) (s : State) : State :=
  mkState (ikTarget s) (smoothAngles s) (isGripping s) (attachedBlockId s)
    (mode s) (autoPhase s) (resetKey s) (waypoints s) (replayIndex s)
    (telemetryData s) (desiredAngles s) (blockPositions s) v
    (frameCount s) (targetBlockIdForAuto s) (bodies s).

Definition putFrameCount (v : nat) (s : State) : State :=
  mkState (ikTarget s) (smoothAngles s) (isGripping s) (attachedBlockId s)
    (mode s) (autoPhase s) (resetKey s) (waypoints s) (replayIndex s)
    (telemetryData s) (desiredAngles s) (blockPositions s) (prevAngles s)
    v (targetBlockIdForAuto s) (bodies s).

Definition putBodies (v : list (BlockType * BlockBody)) (s : State) : State :=
  mkState (ikTarget s) (smoothAngles s) (isGripping s) (attachedBlockId s)
    (mode s) (autoPhase s) (resetKey s) (waypoints s) (replayIndex s)
    (telemetryData s) (desiredAngles s) (blockPositions s) (prevAngles s)
    (frameCount s) (targetBlockIdForAuto s) v.
(** In the definitions below [r] is the state of the last render, which
    a callback reads, and [s] is the state it is building. *)

Definition handleTargetMove (newPos : Vec3) (s : State) : State :=
  let s := setIkTarget newPos s in
  match solveIK (vx newPos) (vy newPos) (vz newPos) with
  | Some solution => putDesiredAngles solution s
  | None => s
  end.

Definition moveTowards (dest : Vec3) (speed : R) (r s : State) : State :=
  let dir := normalize (subVectors dest (ikTarget r)) in
  handleTargetMove (add (ikTarget r) (multiplyScalar dir speed)) s.

(** The scan of [tryGrabClosest]: the running minimum starts at the
    capture radius, and a block replaces it only when strictly closer. *)
Definition closestScan (target : Vec3) (m : list (nat * Vec3))
  : R * option nat :=
  fold_left
    (fun acc entry =>
       let dist := distanceTo target (snd entry) in
       if Rlt_dec dist (fst acc) then (dist, Some (fst entry)) else acc)
    m (1.5, None).

Definition tryGrabClosest (r s : State) : State :=
  let s := setIsGripping true s in
  let closestId := snd (closestScan (ikTarget r) (blockPositions r)) in
  if truthy closestId then setAttachedBlockId closestId s else s.

Definition toggleGripper (r : State) : State :=
  if truthy (attachedBlockId r)
  then setIsGripping false (setAttachedBlockId None r)
  else tryGrabClosest r r.

Definition handleReset (r : State) : State :=
  let s := setMode MANUAL r in
  let s := setAutoPhase IDLE s in
  let s := setIsGripping false s in
  let s := setAttachedBlockId None s in
  let s := setIkTarget (vec3 2 2 2) s in
  let s := setWaypoints [] s in
  let s := setResetKey (resetKey r + 1) s in
  (* the Block components' effect on [resetKey] *)
  putBodies (map (fun e => (fst e, mkBody (initialPos (fst e)) 0)) (bodies r)) s.

Definition recordWaypoint (r : State) : State :=
  setWaypoints (waypoints r ++ [mkWaypoint (ikTarget r) (isGripping r)]) r.

Definition toggleReplay (r : State) : State :=
  if mode_eqb (mode r) REPLAY then setMode MANUAL r
  else if (0 <? length (waypoints r))%nat
       then setReplayIndex 0 (setMode REPLAY r)
       else r.

(** The [switch] of the auto pick: the destination of the phase, the
    next phase, and the setters the phase calls. *)
Definition autoSwitch (r s : State) : Vec3 * Phase * State :=
  let threshold := 0.1 in
  let targetBlockPos :=
    match mapGet (targetBlockIdForAuto r) (blockPositions r) with
    | Some p => p
    | None => vec3 4 0.5 4
    end in
  match autoPhase r with
  | IDLE => (vec3 0 0 0, APPROACH, s)
  | APPROACH =>
      let targetDest :=
        vec3 (vx targetBlockPos) (vy targetBlockPos + 2) (vz targetBlockPos) in
      if Rlt_dec (distanceTo (ikTarget r) targetDest) threshold
      then (targetDest, DESCEND, s) else (targetDest, APPROACH, s)
  | DESCEND =>
      let targetDest :=
        vec3 (vx targetBlockPos) (vy targetBlockPos) (vz targetBlockPos) in
      if Rlt_dec (distanceTo (ikTarget r) targetDest) threshold
      then (targetDest, LIFT,
            setAttachedBlockId (Some (targetBlockIdForAuto r))
              (setIsGripping true s))
      else (targetDest, DESCEND, s)
  | LIFT =>
      let targetDest := vec3 (vx targetBlockPos) 3 (vz targetBlockPos) in
      if Rlt_dec (distanceTo (ikTarget r) targetDest) threshold
      then (targetDest, MOVE_TO_ZONE, s) else (targetDest, LIFT, s)
  | MOVE_TO_ZONE =>
      let targetDest := vec3 (-4) 3 2 in
      if Rlt_dec (distanceTo (ikTarget r) targetDest) threshold
      then (targetDest, LOWER_TO_DROP, s) else (targetDest, MOVE_TO_ZONE, s)
  | LOWER_TO_DROP =>
      let targetDest := vec3 (-4) 0.8 2 in
      if Rlt_dec (distanceTo (ikTarget r) targetDest) threshold
      then (targetDest, RETRACT,
            setAttachedBlockId None (setIsGripping false s))
      else (targetDest, LOWER_TO_DROP, s)
  | RETRACT =>
      let targetDest := vec3 0 3 0 in
      if Rlt_dec (distanceTo (ikTarget r) targetDest) threshold
      then (targetDest, RETRACT, setAutoPhase IDLE (setMode MANUAL s))
      else (targetDest, RETRACT, s)
  end.

Definition autoPick (delta : R) (r s : State) : State :=
  let speed := 6 * delta in
  let '(targetDest, nextPhase, s) := autoSwitch r s in
  if mode_eqb (mode r) AUTO_PICK && negb (phase_eqb (autoPhase r) IDLE) then
    let s := moveTowards targetDest speed r s in
    if phase_eqb nextPhase (autoPhase r) then s else setAutoPhase nextPhase s
  else s.

(** The replay part of the frame.  Reading [waypoints[replayIndex]] past
    the end gives [undefined], and [targetPoint.pos] then throws: the
    rest of the callback does not run. *)
Definition replay (delta : R) (r s : State) : State :=
  match waypoints r with
  | [] => setMode MANUAL s
  | _ :: _ =>
      match nth_error (waypoints r) (replayIndex r) with
      | None => s
      | Some targetPoint =>
          let s := moveTowards (pos targetPoint) (4 * delta) r s in
          if Rlt_dec (distanceTo (ikTarget r) (pos targetPoint)) 0.1 then
            let s :=
              if Bool.eqb (grip targetPoint) (isGripping r) then s
              else if grip targetPoint then tryGrabClosest r s
                   else setAttachedBlockId None (setIsGripping false s) in
            setReplayIndex
              ((replayIndex r + 1) mod length (waypoints r))%nat s
          else s
      end
  end.

(** The telemetry tick: every fifth frame a sample is appended, and the
    history keeps the last 40. *)
Definition telemetry (delta : R) (count : nat) (newAngles : JointAngles)
  (r s : State) : State :=
  if (count mod 5 =? 0)%nat then
    setTelemetryData
      (pushSample 40 (telemetryData s)
         (takeSample count newAngles (prevAngles r) delta
            (truthy (attachedBlockId r)))) s
  else s.

(** The controller's [useFrame] callback. *)
Definition frame (delta : R) (r : State) : State :=
  let newAngles := lerpAngles (smoothAngles r) (desiredAngles r) in
  let s := setSmoothAngles newAngles r in
  let count := S (frameCount r) in
  let s := putFrameCount count s in
  let s := telemetry delta count newAngles r s in
  let s := putPrevAngles newAngles s in
  let s := if mode_eqb (mode r) AUTO_PICK then autoPick delta r s else s in
  if mode_eqb (mode r) REPLAY then replay delta r s else s.

(** The blocks' [useFrame] callbacks, each with its [onPosUpdate]. *)
Definition blockTick (r : State) : State :=
  let moved :=
    map (fun e =>
           (fst e,
            blockFrame (isAttached (attachedBlockId r) (fst e))
                       (carriedPosition (ikTarget r)) (snd e)))
        (bodies r) in
  let reported :=
    fold_left (fun m e => mapSet (id (fst e)) (position (snd e)) m)
              moved (blockPositions r) in
  putBlockPositions reported (putBodies moved r).

(** What can happen between two renders.  A control that is not rendered
    or is disabled does nothing: the target handle exists only in manual
    mode, AUTO PICK and REC are disabled outside manual mode, PLAY is
    disabled while there is no waypoint. *)
Inductive Op : Type :=
| Frame (delta : R)
| BlockTick
| DragTarget (p : Vec3)
| ClickAutoPick
| ClickGripper
| ClickReset
| ClickRecord
| ClickReplay.

Definition step (r : State) (o : Op) : State :=
  match o with
  | Frame delta => frame delta r
  | BlockTick => blockTick r
  | DragTarget p =>
      if mode_eqb (mode r) MANUAL then handleTargetMove p r else r
  | ClickAutoPick =>
      if mode_eqb (mode r) MANUAL then setMode AUTO_PICK r else r
  | ClickGripper => toggleGripper r
  | ClickReset => handleReset r
  | ClickRecord =>
      if mode_eqb (mode r) MANUAL then recordWaypoint r else r
  | ClickReplay =>
      if (length (waypoints r) =? 0)%nat then r else toggleReplay r
  end.

Definition run (ops : list Op) (r : State) : State := fold_left step ops r.

(** Two scripts of the operator: drag the target onto the first block,
    let the blocks report their positions and close the gripper; and
    close the gripper at once, away from every block. *)
Definition grabScript : list Op :=
  [ DragTarget (vec3 4 0.5 4); BlockTick; ClickGripper ].

Definition emptyGraspScript : list Op := [ ClickGripper ].


(** [getMinDist]: the distance shown by the proximity read-out.  The
    running minimum starts at 99, and a result of 99 is shown as 0. *)
Definition getMinDist (r : State) : R :=
  let min :=
    fold_left
      (fun min entry =>
         let d := distanceTo (ikTarget r) (snd entry) in
         if Rlt_dec d min then d else min)
      (blockPositions r) 99 in
  if Req_dec_T min 99 then 0 else min.

(** Properties of a state that the proofs below carry along a run. *)

Definition gripInv (s : State) : Prop :=
  attachedBlockId s <> None -> isGripping s = true.

Definition telemetryInv (s : State) : Prop :=
  (length (telemetryData s) <= 40)%nat.


(** The map of reported positions is empty (no block has run a frame
    yet) or has one entry per block, in the order of the blocks. *)
Definition knownBlocks (s : State) : Prop :=
  blockPositions s = [] \/
  map fst (blockPositions s) = map id INITIAL_BLOCKS.

(** The attachment is [null] or the id of one of the blocks. *)
Definition validAttachment (s : State) : Prop :=
  attachedBlockId s = None \/
  exists b, In b INITIAL_BLOCKS /\ attachedBlockId s = Some (id b).

End Multi.

(* ================================================================= *)
(** * Proofs: the solver *)

Import Vector3 Kinematics.

(** ** Trigonometry of [atan2] *)





Lemma atan2_origin : atan2 0 0 = 0.
Proof.
  unfold atan2.
  destruct (Rlt_dec 0 0); [lra |]. reflexivity.
Qed.

(** ** The triangle of the two links *)


Section Triangle.

Variable h : R.
Hypothesis Hlo : L2 - L3 <= h.
Hypothesis Hhi : h <= L2 + L3.







End Triangle.


(** ** What [solveIK] returns *)

Lemma shoulderDist_squares (x y z : R) :
  shoulderDist x y z = sqrt (x * x + z * z + (y - L1) * (y - L1)).
Proof.
  unfold shoulderDist, reach. cbv zeta.
  rewrite sqrt_sqrt by nra. reflexivity.
Qed.

Lemma solveIK_unfold (x y z : R) :
  solveIK x y z =
  let h := shoulderDist x y z in
  if Rlt_dec (L2 + L3) h then None
  else Some (mkAngles
               (Num (atan2 x z))
               (jsub (Num (PI / 2))
                  (jadd (jacos (jdiv (Num (L2 * L2 + h * h - L3 * L3))
                                     (Num (2 * L2 * h))))
                        (Num (atan2 (y - L1) (reach x z)))))
               (jsub (Num PI)
                  (jacos (jdiv (Num (L2 * L2 + L3 * L3 - h * h))
                               (Num (2 * L2 * L3)))))).
Proof. reflexivity. Qed.


Lemma jacos_above (r : R) : 1 < r -> jacos (Num r) = NaN.
Proof.
  intros H. unfold jacos.
  destruct (Rle_dec (-1) r); [| reflexivity].
  destruct (Rle_dec r 1); [lra | reflexivity].
Qed.


Lemma jdiv_num (a b : R) : b <> 0 -> jdiv (Num a) (Num b) = Num (a / b).
Proof.
  intros H. unfold jdiv.
  destruct (Req_dec_T b 0); [contradiction | reflexivity].
Qed.

Lemma jdiv_pos_zero (a b : R) :
  0 < a -> b = 0 -> jdiv (Num a) (Num b) = PosInf.
Proof.
  intros Ha Hb. unfold jdiv. destruct (Req_dec_T b 0); [| contradiction].
  destruct (Rlt_dec 0 a); [reflexivity | contradiction].
Qed.




(** ** The solver at four targets *)

Lemma shoulderDist_pivot : shoulderDist 0 1 0 = 0.
Proof.
  rewrite shoulderDist_squares. unfold L1.
  replace (0 * 0 + 0 * 0 + (1 - 1) * (1 - 1)) with 0 by ring.
  apply sqrt_0.
Qed.




Lemma solveIK_pivot : solveIK 0 1 0 = Some (mkAngles (Num 0) NaN NaN).
Proof.
  rewrite solveIK_unfold, shoulderDist_pivot. cbv zeta.
  destruct (Rlt_dec (L2 + L3) 0) as [H | _]; [unfold L2, L3 in H; lra |].
  rewrite atan2_origin.
  rewrite jdiv_pos_zero by (unfold L2, L3; lra).
  rewrite jdiv_num by (unfold L2, L3; lra).
  rewrite jacos_above by (unfold L2, L3; lra).
  reflexivity.
Qed.




(* ================================================================= *)
(** * Proofs: smoothing *)

Section Smoothing.

Variables a d : R.




End Smoothing.

Lemma lerpAngles_rest : lerpAngles zeroAngles zeroAngles = zeroAngles.
Proof.
  unfold lerpAngles, zeroAngles, lerp, jsub;
    cbn [base shoulder elbow jneg jadd jmul].
  replace (0 + (0 + - 0) * 0.1) with 0 by ring. reflexivity.
Qed.

(* ================================================================= *)
(** * Proofs: the telemetry history and its samples *)

Section History.

Variable capacity : nat.

Lemma pushSample_room (prev : list Sample) (x : Sample) :
  (length prev < capacity)%nat -> pushSample capacity prev x = prev ++ [x].
Proof.
  intros H. unfold pushSample. rewrite length_app; cbn [length].
  destruct (Nat.ltb_spec capacity (length prev + 1)); [lia | reflexivity].
Qed.

Lemma pushSample_full (prev : list Sample) (x : Sample) :
  (capacity <= length prev)%nat ->
  pushSample capacity prev x = tl (prev ++ [x]).
Proof.
  intros H. unfold pushSample. rewrite length_app; cbn [length].
  destruct (Nat.ltb_spec capacity (length prev + 1)); [reflexivity | lia].
Qed.

Lemma pushSample_evicts_oldest (prev : list Sample) (x : Sample) :
  (0 < capacity)%nat ->
  length prev = capacity ->
  pushSample capacity prev x = tl prev ++ [x].
Proof.
  intros Hcap Hlen. rewrite pushSample_full by lia.
  destruct prev as [| y prev']; [cbn [length] in Hlen; lia | reflexivity].
Qed.

Lemma pushSample_length (prev : list Sample) (x : Sample) :
  (length prev <= capacity)%nat ->
  (length (pushSample capacity prev x) <= capacity)%nat.
Proof.
  intros H. unfold pushSample.
  destruct (Nat.ltb_spec capacity (length (prev ++ [x]))) as [Hover | Hfit].
  - rewrite length_app in Hover; cbn [length] in Hover.
    destruct prev as [| y prev']; cbn [app tl length] in *.
    + lia.
    + rewrite length_app; cbn [length]. lia.
  - exact Hfit.
Qed.

(** One push keeps the window of the last [capacity] samples. *)
Lemma pushSample_window (prev : list Sample) (x : Sample) :
  (length prev <= capacity)%nat ->
  pushSample capacity prev x
  = skipn (length (prev ++ [x]) - capacity) (prev ++ [x]).
Proof.
  intros H. rewrite length_app; cbn [length].
  destruct (Nat.eq_dec (length prev) capacity) as [Hfull | Hroom].
  - rewrite pushSample_full by lia.
    replace (length prev + 1 - capacity)%nat with 1%nat by lia.
    destruct prev; reflexivity.
  - rewrite pushSample_room by lia.
    replace (length prev + 1 - capacity)%nat with 0%nat by lia.
    reflexivity.
Qed.

Lemma history_window (xs prev : list Sample) :
  (length prev <= capacity)%nat ->
  fold_left (pushSample capacity) xs prev
  = skipn (length (prev ++ xs) - capacity) (prev ++ xs).
Proof.
  revert prev. induction xs as [| x xs IH]; intros prev Hprev.
  - cbn [fold_left]. rewrite app_nil_r.
    replace (length prev - capacity)%nat with 0%nat by lia. reflexivity.
  - cbn [fold_left].
    rewrite IH by (apply pushSample_length; exact Hprev).
    rewrite pushSample_window by exact Hprev.
    set (k := (length (prev ++ [x]) - capacity)%nat).
    assert (Hk : (k <= length (prev ++ [x]))%nat) by (unfold k; lia).
    assert (Hshift : skipn k (prev ++ [x]) ++ xs = skipn k (prev ++ x :: xs)).
    { replace (prev ++ x :: xs) with ((prev ++ [x]) ++ xs)
        by (rewrite <- app_assoc; reflexivity).
      rewrite (skipn_app k (prev ++ [x]) xs).
      replace (k - length (prev ++ [x]))%nat with 0%nat by lia.
      reflexivity. }
    rewrite Hshift, skipn_skipn. f_equal.
    rewrite length_skipn. unfold k. rewrite !length_app. cbn [length]. lia.
Qed.

End History.

Lemma shoulderVelocity_zero_delta_rest :
  shoulderVelocity zeroAngles zeroAngles 0 = NaN.
Proof.
  unfold shoulderVelocity, zeroAngles, jsub; cbn [shoulder jneg jadd].
  unfold jdiv. destruct (Req_dec_T 0 0) as [_ | H]; [| contradiction].
  destruct (Rlt_dec 0 (0 + - 0)) as [H | _]; [lra |].
  destruct (Rlt_dec (0 + - 0) 0) as [H | _]; [lra |].
  reflexivity.
Qed.

Lemma shoulderVelocity_zero_delta_moving (n p : R) :
  n <> p ->
  shoulderVelocity (mkAngles (Num 0) (Num n) (Num 0))
                   (mkAngles (Num 0) (Num p) (Num 0)) 0 = PosInf.
Proof.
  intros Hnp.
  unfold shoulderVelocity, jsub; cbn [shoulder jneg jadd jabs].
  unfold jdiv. destruct (Req_dec_T 0 0) as [_ | H]; [| contradiction].
  destruct (Rlt_dec 0 (n + - p)); [reflexivity |].
  destruct (Rlt_dec (n + - p) 0); [reflexivity | lra].
Qed.

(* ================================================================= *)
(** * Proofs: vectors and blocks *)

Lemma distanceTo_self (p : Vec3) : distanceTo p p = 0.
Proof.
  unfold distanceTo. cbv zeta.
  replace ((vx p - vx p) * (vx p - vx p) + (vy p - vy p) * (vy p - vy p)
           + (vz p - vz p) * (vz p - vz p)) with 0 by ring.
  apply sqrt_0.
Qed.

Lemma distanceTo_nonneg (p q : Vec3) : 0 <= distanceTo p q.
Proof. unfold distanceTo. cbv zeta. apply sqrt_pos. Qed.

Lemma normalize_zero (p : Vec3) : normalize (subVectors p p) = vec3 0 0 0.
Proof.
  unfold normalize, subVectors, multiplyScalar; cbn [vx vy vz]. cbv zeta.
  f_equal; ring.
Qed.

Lemma add_zero_step (p : Vec3) (speed : R) :
  add p (multiplyScalar (vec3 0 0 0) speed) = p.
Proof.
  destruct p as [x y z]. unfold add, multiplyScalar; cbn [vx vy vz].
  f_equal; ring.
Qed.

(** A step of length [speed] straight towards [dest] shortens the
    distance by [speed], as long as it does not pass the destination. *)
Lemma step_towards_closer (p dest : Vec3) (speed : R) :
  0 <= speed <= distanceTo p dest ->
  0 < distanceTo p dest ->
  distanceTo (add p (multiplyScalar (normalize (subVectors dest p)) speed)) dest
  = distanceTo p dest - speed.
Proof.
  intros Hspeed Hpos.
  destruct p as [px py pz], dest as [wx wy wz].
  unfold distanceTo in *. cbv zeta in *. cbn [vx vy vz] in *.
  set (q := (px - wx) * (px - wx) + (py - wy) * (py - wy)
            + (pz - wz) * (pz - wz)) in *.
  set (D := sqrt q) in *.
  assert (Hq : 0 <= q).
  { unfold q. repeat apply Rplus_le_le_0_compat; apply Rle_0_sqr. }
  assert (HD : D * D = q) by (apply sqrt_sqrt; exact Hq).
  unfold normalize, subVectors, vlength, multiplyScalar, add.
  cbv zeta. cbn [vx vy vz].
  replace ((wx - px) * (wx - px) + (wy - py) * (wy - py)
           + (wz - pz) * (wz - pz))
    with q by (unfold q; ring).
  fold D.
  destruct (Req_dec_T D 0) as [Hz | Hnz]; [lra |].
  match goal with |- sqrt ?e = _ =>
    replace e with ((D - speed) * (D - speed))
  end.
  - apply sqrt_square. lra.
  - transitivity (q * ((1 - speed / D) * (1 - speed / D))).
    + rewrite <- HD. field. exact Hnz.
    + unfold q. field. exact Hnz.
Qed.

Lemma blockFrame_rest (tp : Vec3) (x z : R) :
  blockFrame false tp (mkBody (vec3 x 0.5 z) 0) = mkBody (vec3 x 0.5 z) 0.
Proof.
  unfold blockFrame; cbn [position velocityY vx vy vz].
  destruct (Rlt_dec 0.5 0.5) as [H | _]; [lra |].
  cbn [position velocityY vx vy vz].
  destruct (Rle_dec 0.5 0.5) as [_ | H]; [reflexivity | lra].
Qed.

Lemma map_fst_relabel {A B C : Type} (g : A * B -> C) (l : list (A * B)) :
  map fst (map (fun e => (fst e, g e)) l) = map fst l.
Proof.
  induction l as [| e l IH]; cbn [map fst]; [reflexivity |].
  rewrite IH. reflexivity.
Qed.

(* ================================================================= *)
(** * Proofs: the single-block page *)

Module SingleFacts.

Import Single.

Ltac fields :=
  cbn [ikTarget smoothAngles isGripping hasBlock autoPhase telemetryData
       desiredAngles prevAngles blockPosRef frameCount body
       setIkTarget setSmoothAngles setIsGripping setHasBlock setAutoPhase
       setTelemetryData putDesiredAngles putPrevAngles putBlockPosRef
       putFrameCount putBody] in *.

(** What the sub-handlers can do to a state, as setters applied to it. *)

Lemma single_handleTargetMove_shape (p : Vec3) (s : State) :
  exists d, handleTargetMove p s = putDesiredAngles d (setIkTarget p s).
Proof.
  unfold handleTargetMove. destruct (solveIK _ _ _) as [sol |].
  - exists sol. reflexivity.
  - exists (desiredAngles s). reflexivity.
Qed.

Lemma single_telemetry_shape (delta : R) (count : nat) (n : JointAngles)
  (r s : State) :
  telemetry delta count n r s = s \/
  exists x, telemetry delta count n r s
            = setTelemetryData (pushSample 50 (telemetryData s) x) s.
Proof.
  unfold telemetry.
  destruct (count mod 5 =? 0)%nat; [right; eexists | left]; reflexivity.
Qed.

(** Case analysis of an unfolded handler: a sub-handler is replaced by
    its shape, a conditional by its branches. *)
Ltac cases :=
  repeat first
    [ match goal with
      | |- context [telemetry ?a ?b ?c ?d ?e] =>
          destruct (single_telemetry_shape a b c d e) as [-> | [? ->]]
      | |- context [handleTargetMove ?a ?b] =>
          destruct (single_handleTargetMove_shape a b) as [? ->]
      end
    | match goal with
      | |- context [match ?x with _ => _ end] =>
          lazymatch x with
          | context [match _ with _ => _ end] => fail
          | _ => destruct x eqn:?
          end
      end ].

Ltac by_cases r :=
  unfold step, isAuto, startAutoSequence, toggleGripper, blockTick, frame,
    autoSequence, autoSwitch;
  destruct (autoPhase r) eqn:?; cbn [phase_eqb negb orb];
  cases; fields.

Lemma single_step_gripInv (r : State) (o : Op) :
  gripInv r -> gripInv (step r o).
Proof.
  unfold gripInv.
  destruct o; by_cases r; intros H;
    solve [ exact H | congruence | intros _; reflexivity
          | intros _; apply H; reflexivity ].
Qed.

Lemma single_step_telemetryInv (r : State) (o : Op) :
  telemetryInv r -> telemetryInv (step r o).
Proof.
  unfold telemetryInv.
  destruct o; by_cases r; intros H;
    solve [ exact H | apply pushSample_length; exact H ].
Qed.

(** An operation leaves the history alone or pushes one sample. *)
Lemma single_step_history (r : State) (o : Op) :
  telemetryData (step r o) = telemetryData r \/
  exists x, telemetryData (step r o) = pushSample 50 (telemetryData r) x.
Proof.
  destruct o; by_cases r;
    solve [ left; reflexivity | right; eexists; reflexivity ].
Qed.

(** The sample a frame pushes is the one [takeSample] computes from the
    smoothed angles, the previous angles and the frame's delta. *)
Lemma single_frame_telemetry (delta : R) (r : State) :
  telemetryData (frame delta r)
  = (if (S (frameCount r) mod 5 =? 0)%nat
     then pushSample 50 (telemetryData r)
            (takeSample (S (frameCount r))
               (lerpAngles (smoothAngles r) (desiredAngles r))
               (prevAngles r) delta (hasBlock r))
     else telemetryData r).
Proof.
  unfold frame, telemetry, autoSequence, autoSwitch.
  destruct (S (frameCount r) mod 5 =? 0)%nat;
    destruct (autoPhase r) eqn:?; cbn [phase_eqb]; cases; fields;
    reflexivity.
Qed.

Lemma single_run_invariant (P : State -> Prop) :
  (forall r o, P r -> P (step r o)) ->
  forall ops r, P r -> P (run ops r).
Proof.
  intros Hstep ops. unfold run.
  induction ops as [| o ops IH]; intros r Hr; cbn [fold_left].
  - exact Hr.
  - apply IH, Hstep, Hr.
Qed.


(** Starting the sequence while a block is held changes nothing, by the
    guard of the handler and by the disabled button alike. *)
Lemma startAutoSequence_rejected (r : State) :
  hasBlock r = true ->
  startAutoSequence r = r /\ step r ClickAutoSeq = r.
Proof.
  intros H. unfold step, startAutoSequence. rewrite H.
  rewrite orb_true_r. split; reflexivity.
Qed.

Lemma single_frame_at_rest (delta : R) (r : State) :
  atRest r ->
  atRest (frame delta r) /\
  frameCount (frame delta r) = S (frameCount r) /\
  telemetryData (frame delta r)
  = (if (S (frameCount r) mod 5 =? 0)%nat
     then pushSample 50 (telemetryData r)
            (takeSample (S (frameCount r)) zeroAngles zeroAngles delta false)
     else telemetryData r).
Proof.
  unfold atRest. intros (Hph & Hb & Hs & Hd & Hp).
  unfold frame, autoSequence, telemetry. fields.
  rewrite Hph, Hb, Hs, Hd, Hp, lerpAngles_rest. cbn [phase_eqb].
  destruct (S (frameCount r) mod 5 =? 0)%nat; fields; auto 10.
Qed.

(** Five frames of zero elapsed time from the initial state: the first
    sample is taken at the fifth. *)
Lemma single_five_still_frames :
  telemetryData (run (repeat (Frame 0) 5) initial)
  = [ takeSample 5 zeroAngles zeroAngles 0 false ].
Proof.
  assert (H0 : atRest initial) by (unfold atRest, initial; fields; auto).
  unfold run. cbn [repeat fold_left step].
  destruct (single_frame_at_rest 0 _ H0) as (H1 & C1 & T1).
  destruct (single_frame_at_rest 0 _ H1) as (H2 & C2 & T2).
  destruct (single_frame_at_rest 0 _ H2) as (H3 & C3 & T3).
  destruct (single_frame_at_rest 0 _ H3) as (H4 & C4 & T4).
  destruct (single_frame_at_rest 0 _ H4) as (_ & _ & T5).
  rewrite T5, C4, C3, C2, C1, T4, C3, C2, C1, T3, C2, C1, T2, C1, T1.
  reflexivity.
Qed.

End SingleFacts.

(* ================================================================= *)
(** * Proofs: the multi-block page *)

Module MultiFacts.

Import Multi.

Ltac fields :=
  cbn [ikTarget smoothAngles isGripping attachedBlockId mode autoPhase
       resetKey waypoints replayIndex telemetryData desiredAngles
       blockPositions prevAngles frameCount targetBlockIdForAuto bodies
       setIkTarget setSmoothAngles setIsGripping setAttachedBlockId setMode
       setAutoPhase setResetKey setWaypoints setReplayIndex setTelemetryData
       putDesiredAngles putBlockPositions putPrevAngles putFrameCount
       putBodies] in *.

Ltac compute_state :=
  cbn [ikTarget smoothAngles isGripping attachedBlockId mode autoPhase
       resetKey waypoints replayIndex telemetryData desiredAngles
       blockPositions prevAngles frameCount targetBlockIdForAuto bodies
       setIkTarget setSmoothAngles setIsGripping setAttachedBlockId setMode
       setAutoPhase setResetKey setWaypoints setReplayIndex setTelemetryData
       putDesiredAngles putBlockPositions putPrevAngles putFrameCount
       putBodies
       initial initialBodies INITIAL_BLOCKS map fold_left fst snd
       id initialPos isAttached truthy mapSet mapGet Nat.eqb mode_eqb
       phase_eqb andb negb app length Nat.ltb Nat.leb].

(** What the sub-handlers can do to a state, as setters applied to it. *)

Lemma multi_handleTargetMove_shape (p : Vec3) (s : State) :
  exists d, handleTargetMove p s = putDesiredAngles d (setIkTarget p s).
Proof.
  unfold handleTargetMove. destruct (solveIK _ _ _) as [sol |].
  - exists sol. reflexivity.
  - exists (desiredAngles s). reflexivity.
Qed.

Lemma moveTowards_shape (dest : Vec3) (speed : R) (r s : State) :
  exists d,
    moveTowards dest speed r s
    = putDesiredAngles d
        (setIkTarget
           (add (ikTarget r)
                (multiplyScalar (normalize (subVectors dest (ikTarget r)))
                                speed))
           s).
Proof. unfold moveTowards. apply multi_handleTargetMove_shape. Qed.

Lemma tryGrabClosest_shape (r s : State) :
  tryGrabClosest r s = setIsGripping true s \/
  exists i, tryGrabClosest r s
            = setAttachedBlockId (Some (S i)) (setIsGripping true s).
Proof.
  unfold tryGrabClosest.
  destruct (snd (closestScan (ikTarget r) (blockPositions r))) as [[| i] |];
    cbn [truthy]; [left | right; exists i | left]; reflexivity.
Qed.

Lemma multi_telemetry_shape (delta : R) (count : nat) (n : JointAngles)
  (r s : State) :
  telemetry delta count n r s = s \/
  exists x, telemetry delta count n r s
            = setTelemetryData (pushSample 40 (telemetryData s) x) s.
Proof.
  unfold telemetry.
  destruct (count mod 5 =? 0)%nat; [right; eexists | left]; reflexivity.
Qed.

(** Case analysis of an unfolded handler: a sub-handler is replaced by
    its shape, a conditional by its branches. *)
Ltac cases :=
  repeat first
    [ match goal with
      | |- context [telemetry ?a ?b ?c ?d ?e] =>
          destruct (multi_telemetry_shape a b c d e) as [-> | [? ->]]
      | |- context [moveTowards ?a ?b ?c ?d] =>
          destruct (moveTowards_shape a b c d) as [? ->]
      | |- context [tryGrabClosest ?a ?b] =>
          destruct (tryGrabClosest_shape a b) as [-> | [? ->]]
      | |- context [handleTargetMove ?a ?b] =>
          destruct (multi_handleTargetMove_shape a b) as [? ->]
      end
    | match goal with
      | |- context [match ?x with _ => _ end] =>
          lazymatch x with
          | context [match _ with _ => _ end] => fail
          | _ => destruct x eqn:?
          end
      end ].

Ltac open_step :=
  unfold step, toggleGripper, handleReset, recordWaypoint, toggleReplay,
    blockTick, frame, autoPick, replay, autoSwitch.

Ltac by_cases r :=
  open_step;
  destruct (mode r) eqn:?; cbn [mode_eqb andb];
  destruct (autoPhase r) eqn:?; cbn [phase_eqb negb];
  cases; fields.

Lemma multi_step_gripInv (r : State) (o : Op) :
  gripInv r -> gripInv (step r o).
Proof.
  unfold gripInv.
  destruct o; by_cases r; intros H;
    solve [ exact H | congruence | intros _; reflexivity ].
Qed.

Lemma multi_step_telemetryInv (r : State) (o : Op) :
  telemetryInv r -> telemetryInv (step r o).
Proof.
  unfold telemetryInv.
  destruct o; by_cases r; intros H;
    solve [ exact H | apply pushSample_length; exact H ].
Qed.

(** An operation leaves the history alone or pushes one sample. *)
Lemma multi_step_history (r : State) (o : Op) :
  telemetryData (step r o) = telemetryData r \/
  exists x, telemetryData (step r o) = pushSample 40 (telemetryData r) x.
Proof.
  destruct o; by_cases r;
    solve [ left; reflexivity | right; eexists; reflexivity ].
Qed.


(** The sample a frame pushes is the one [takeSample] computes from the
    smoothed angles, the previous angles and the frame's delta. *)
Lemma multi_frame_telemetry (delta : R) (r : State) :
  telemetryData (frame delta r)
  = (if (S (frameCount r) mod 5 =? 0)%nat
     then pushSample 40 (telemetryData r)
            (takeSample (S (frameCount r))
               (lerpAngles (smoothAngles r) (desiredAngles r))
               (prevAngles r) delta (truthy (attachedBlockId r)))
     else telemetryData r).
Proof.
  unfold frame, telemetry, autoPick, replay, autoSwitch.
  destruct (S (frameCount r) mod 5 =? 0)%nat;
    destruct (mode r) eqn:?; cbn [mode_eqb andb];
    destruct (autoPhase r) eqn:?; cbn [phase_eqb negb];
    cases; fields; reflexivity.
Qed.

Lemma multi_run_invariant (P : State -> Prop) :
  (forall r o, P r -> P (step r o)) ->
  forall ops r, P r -> P (run ops r).
Proof.
  intros Hstep ops. unfold run.
  induction ops as [| o ops IH]; intros r Hr; cbn [fold_left].
  - exact Hr.
  - apply IH, Hstep, Hr.
Qed.

(** The auto pick never leaves [IDLE]: the frame only stores the next
    phase when the current one is not [IDLE]. *)
Lemma multi_step_autoIdle (r : State) (o : Op) :
  autoPhase r = IDLE -> autoPhase (step r o) = IDLE.
Proof.
  destruct o; open_step; destruct (mode r) eqn:?; cbn [mode_eqb andb];
    intros H; try rewrite H; cbn [phase_eqb negb andb]; cases; fields;
    solve [ exact H | reflexivity ].
Qed.


(** The Block components stay those of [INITIAL_BLOCKS]. *)
Lemma step_bodies (r : State) (o : Op) :
  map fst (bodies (step r o)) = map fst (bodies r).
Proof.
  destruct o; by_cases r;
    solve [ reflexivity | apply (map_fst_relabel (fun e => _)) ].
Qed.

Lemma run_bodies (ops : list Op) :
  map fst (bodies (run ops initial)) = INITIAL_BLOCKS.
Proof.
  apply (multi_run_invariant (fun s => map fst (bodies s) = INITIAL_BLOCKS)).
  - intros r o H. rewrite step_bodies. exact H.
  - reflexivity.
Qed.

Lemma attached_count (a : option nat) :
  (length (filter (isAttached a) INITIAL_BLOCKS) <= 1)%nat.
Proof.
  destruct a as [[| [| [| i]]] |]; cbn; lia.
Qed.

Lemma attached_unique (a : option nat) (b1 b2 : BlockType) :
  In b1 INITIAL_BLOCKS -> In b2 INITIAL_BLOCKS ->
  isAttached a b1 = true -> isAttached a b2 = true -> b1 = b2.
Proof.
  unfold isAttached. destruct a as [i |]; [| discriminate].
  intros H1 H2 E1 E2.
  apply Nat.eqb_eq in E1. apply Nat.eqb_eq in E2.
  cbn [INITIAL_BLOCKS In] in H1, H2.
  destruct H1 as [<- | [<- | []]], H2 as [<- | [<- | []]];
    cbn [id] in *; try reflexivity; congruence.
Qed.

Lemma toggleGripper_releases (r : State) :
  truthy (attachedBlockId r) = true ->
  attachedBlockId (toggleGripper r) = None /\
  isGripping (toggleGripper r) = false.
Proof.
  intros H. unfold toggleGripper. rewrite H. split; reflexivity.
Qed.

(** ** Replay *)

(** One frame of replay at a waypoint of the program. *)
Lemma replay_frame (delta : R) (r : State) (wp : Waypoint) :
  mode r = REPLAY ->
  nth_error (waypoints r) (replayIndex r) = Some wp ->
  mode (frame delta r) = REPLAY /\
  waypoints (frame delta r) = waypoints r /\
  ikTarget (frame delta r)
  = add (ikTarget r)
        (multiplyScalar (normalize (subVectors (pos wp) (ikTarget r)))
                        (4 * delta)) /\
  replayIndex (frame delta r)
  = (if Rlt_dec (distanceTo (ikTarget r) (pos wp)) 0.1
     then ((replayIndex r + 1) mod length (waypoints r))%nat
     else replayIndex r).
Proof.
  intros Hmode Hwp. unfold frame, replay.
  rewrite Hmode, Hwp; cbn [mode_eqb].
  destruct (waypoints r) as [| w l] eqn:Hw.
  - destruct (replayIndex r); discriminate Hwp.
  - cases; fields; repeat split; try reflexivity; assumption.
Qed.








(** ** The auto pick *)

(** In auto pick mode with the phase at [IDLE] a frame only smooths and
    samples: the sequence does not start. *)
Lemma frame_auto_idle (delta : R) (r : State) :
  mode r = AUTO_PICK -> autoPhase r = IDLE ->
  mode (frame delta r) = AUTO_PICK /\ autoPhase (frame delta r) = IDLE /\
  ikTarget (frame delta r) = ikTarget r /\
  isGripping (frame delta r) = isGripping r /\
  attachedBlockId (frame delta r) = attachedBlockId r.
Proof.
  intros Hm Hp. unfold frame, autoPick, autoSwitch.
  rewrite Hm, Hp. cbn [mode_eqb phase_eqb negb andb].
  cases; fields; auto.
Qed.

Lemma frames_auto_idle (deltas : list R) (r : State) :
  mode r = AUTO_PICK -> autoPhase r = IDLE ->
  let s := run (map Frame deltas) r in
  mode s = AUTO_PICK /\ autoPhase s = IDLE /\
  ikTarget s = ikTarget r /\
  isGripping s = isGripping r /\
  attachedBlockId s = attachedBlockId r.
Proof.
  revert r. induction deltas as [| delta deltas IH]; intros r Hm Hp.
  - cbn. auto.
  - cbn [map run fold_left step].
    fold (run (map Frame deltas) (frame delta r)).
    destruct (frame_auto_idle delta r Hm Hp) as (Hm' & Hp' & Ht & Hg & Ha).
    destruct (IH (frame delta r) Hm' Hp') as (? & ? & ? & ? & ?).
    cbv zeta. repeat split; congruence.
Qed.

(** ** The three scripts *)

Lemma empty_grasp :
  isGripping (run emptyGraspScript initial) = true /\
  attachedBlockId (run emptyGraspScript initial) = None.
Proof.
  unfold run, emptyGraspScript, step, toggleGripper, tryGrabClosest,
    closestScan.
  compute_state. split; reflexivity.
Qed.

Lemma grab_first_block :
  let s := run grabScript initial in
  attachedBlockId s = Some 1%nat /\ isGripping s = true /\
  mode s = MANUAL /\ autoPhase s = IDLE.
Proof.
  cbv zeta. unfold run, grabScript. cbn [fold_left step]. compute_state.
  destruct (multi_handleTargetMove_shape (vec3 4 0.5 4) initial) as [d ->].
  unfold blockTick. compute_state.
  rewrite !blockFrame_rest.
  unfold toggleGripper, tryGrabClosest, closestScan. compute_state.
  cbn [position].
  rewrite distanceTo_self.
  destruct (Rlt_dec 0 1.5) as [_ | H]; [| lra].
  compute_state.
  pose proof (distanceTo_nonneg (vec3 4 0.5 4) (vec3 4 0.5 (-2))) as Hpos.
  destruct (Rlt_dec (distanceTo (vec3 4 0.5 4) (vec3 4 0.5 (-2))) 0)
    as [H | _]; [lra |].
  compute_state. repeat split; reflexivity.
Qed.


End MultiFacts.

(* ================================================================= *)
(** * Main results *)

(** ** The solver *)






Lemma smooth_towards_NaN (n : nat) (a : jsnum) : smooth (S n) a NaN = NaN.
Proof.
  cbn [smooth]. unfold lerp, jsub. cbn [jadd jmul].
  destruct (smooth n a NaN); reflexivity.
Qed.

(** C9: at the shoulder pivot itself, where [h = 0], the solver does not
    report the degenerate input: it returns angles whose shoulder and
    elbow are [NaN], [handleTargetMove] stores them as the desired
    angles, and smoothing towards them gives [NaN] from the first
    frame on. *)
Theorem solveIK_at_pivot_returns_NaN :
  shoulderDist 0 1 0 = 0 /\
  solveIK 0 1 0 = Some (mkAngles (Num 0) NaN NaN) /\
  Single.desiredAngles (Single.handleTargetMove (vec3 0 1 0) Single.initial)
    = mkAngles (Num 0) NaN NaN /\
  Multi.desiredAngles (Multi.handleTargetMove (vec3 0 1 0) Multi.initial)
    = mkAngles (Num 0) NaN NaN /\
  (forall (n : nat) (a : jsnum), smooth (S n) a NaN = NaN).
Proof.
  split; [exact shoulderDist_pivot |].
  split; [exact solveIK_pivot |].
  unfold Single.handleTargetMove, Multi.handleTargetMove; cbn [vx vy vz].
  rewrite solveIK_pivot.
  split; [reflexivity |]. split; [reflexivity |].
  exact smooth_towards_NaN.
Qed.

(** ** Smoothing *)




(** ** Telemetry *)

(** C6: along every run of either page the telemetry history holds at
    most 50 (single-block page) or 40 (multi-block page) samples; an
    operation changes it only by pushing one sample; a push below
    capacity appends, a push at capacity drops the oldest sample and
    appends; and a history built by pushes is the run of the most recent
    [capacity] samples, in order. *)
Theorem telemetry_history_bounded_fifo :
  (forall ops,
      (length (Single.telemetryData (Single.run ops Single.initial))
       <= 50)%nat) /\
  (forall ops,
      (length (Multi.telemetryData (Multi.run ops Multi.initial))
       <= 40)%nat) /\
  (forall r o,
      Single.telemetryData (Single.step r o) = Single.telemetryData r \/
      exists x, Single.telemetryData (Single.step r o)
                = pushSample 50 (Single.telemetryData r) x) /\
  (forall r o,
      Multi.telemetryData (Multi.step r o) = Multi.telemetryData r \/
      exists x, Multi.telemetryData (Multi.step r o)
                = pushSample 40 (Multi.telemetryData r) x) /\
  (forall capacity prev x,
      (length prev < capacity)%nat ->
      pushSample capacity prev x = prev ++ [x]) /\
  (forall capacity prev x,
      (0 < capacity)%nat -> length prev = capacity ->
      pushSample capacity prev x = tl prev ++ [x]) /\
  (forall capacity xs,
      fold_left (pushSample capacity) xs []
      = skipn (length xs - capacity) xs).
Proof.
  repeat split.
  - intros ops.
    apply (SingleFacts.single_run_invariant Single.telemetryInv).
    + exact SingleFacts.single_step_telemetryInv.
    + unfold Single.telemetryInv. cbn. lia.
  - intros ops.
    apply (MultiFacts.multi_run_invariant Multi.telemetryInv).
    + exact MultiFacts.multi_step_telemetryInv.
    + unfold Multi.telemetryInv. cbn. lia.
  - exact SingleFacts.single_step_history.
  - exact MultiFacts.multi_step_history.
  - exact pushSample_room.
  - exact pushSample_evicts_oldest.
  - intros capacity xs.
    rewrite (history_window capacity xs []) by (cbn; lia).
    reflexivity.
Qed.

(** A full history of capacity two drops its oldest sample. *)
Lemma telemetry_eviction_witness :
  pushSample 2 [ mkSample 5 (Num 0) (Num 1); mkSample 10 (Num 0) (Num 1) ]
             (mkSample 15 (Num 0) (Num 1))
  = tl [ mkSample 5 (Num 0) (Num 1); mkSample 10 (Num 0) (Num 1) ]
    ++ [ mkSample 15 (Num 0) (Num 1) ].
Proof.
  apply (proj1 (proj2 (proj2 (proj2 (proj2 (proj2
           telemetry_history_bounded_fifo)))))).
  - exact (Nat.lt_0_succ 1).
  - reflexivity.
Defined.

(** C8, as amended: a sample taken over a non-zero elapsed time from
    finite shoulder angles is finite: its velocity is the absolute
    change of the shoulder angle over the absolute elapsed time, and
    its torque the absolute value of the cosine plus the payload.  The
    frames of both pages push exactly such samples, every fifth frame. *)
Theorem telemetry_sample_finite (count : nat) (now before : JointAngles)
  (delta : R) (carrying : bool) (n p : R) :
  shoulder now = Num n ->
  shoulder before = Num p ->
  delta <> 0 ->
  velocity (takeSample count now before delta carrying)
  = Num (Rabs (n - p) / Rabs delta) /\
  torque (takeSample count now before delta carrying)
  = Num (Rabs (cos n + (if carrying then 1.5 else 0))) /\
  (forall d r,
      Single.telemetryData (Single.frame d r)
      = (if (S (Single.frameCount r) mod 5 =? 0)%nat
         then pushSample 50 (Single.telemetryData r)
                (takeSample (S (Single.frameCount r))
                   (lerpAngles (Single.smoothAngles r) (Single.desiredAngles r))
                   (Single.prevAngles r) d (Single.hasBlock r))
         else Single.telemetryData r)) /\
  (forall d r,
      Multi.telemetryData (Multi.frame d r)
      = (if (S (Multi.frameCount r) mod 5 =? 0)%nat
         then pushSample 40 (Multi.telemetryData r)
                (takeSample (S (Multi.frameCount r))
                   (lerpAngles (Multi.smoothAngles r) (Multi.desiredAngles r))
                   (Multi.prevAngles r) d
                   (Multi.truthy (Multi.attachedBlockId r)))
         else Multi.telemetryData r)).
Proof.
  intros Hn Hp Hd.
  split; [| split; [| split]].
  - unfold takeSample, shoulderVelocity; cbn [velocity].
    rewrite Hn, Hp. unfold jsub; cbn [jneg jadd].
    rewrite jdiv_num by exact Hd.
    cbn [jabs]. f_equal. fold (n - p). unfold Rdiv.
    rewrite Rabs_mult, Rabs_inv. reflexivity.
  - unfold takeSample, totalTorque; cbn [torque].
    rewrite Hn. reflexivity.
  - exact SingleFacts.single_frame_telemetry.
  - exact MultiFacts.multi_frame_telemetry.
Qed.

Lemma sixtieth_nonzero : 1 / 60 <> 0.
Proof. lra. Qed.

(** A sample over a sixtieth of a second while carrying a block. *)
Lemma telemetry_sample_finite_witness :
  velocity (takeSample 5 (mkAngles (Num 0) (Num 0.2) (Num 0))
                         (mkAngles (Num 0) (Num 0.1) (Num 0)) (1 / 60) true)
  = Num (Rabs (0.2 - 0.1) / Rabs (1 / 60)) /\
  torque (takeSample 5 (mkAngles (Num 0) (Num 0.2) (Num 0))
                       (mkAngles (Num 0) (Num 0.1) (Num 0)) (1 / 60) true)
  = Num (Rabs (cos 0.2 + 1.5)).
Proof.
  pose proof (telemetry_sample_finite 5
                (mkAngles (Num 0) (Num 0.2) (Num 0))
                (mkAngles (Num 0) (Num 0.1) (Num 0))
                (1 / 60) true 0.2 0.1 eq_refl eq_refl sixtieth_nonzero)
    as (Hv & Ht & _).
  exact (conj Hv Ht).
Defined.

(** C8, as stated, fails: with zero elapsed time nothing guards the
    division.  Five frames of zero elapsed time from the initial state
    of the single-block page leave one sample, whose velocity is [NaN],
    not 0; and when the shoulder has moved the velocity is [Infinity]. *)
Lemma zero_delta_sample_counterexample :
  map velocity
      (Single.telemetryData
         (Single.run (repeat (Single.Frame 0) 5) Single.initial))
  = [ NaN ] /\
  shoulderVelocity (mkAngles (Num 0) (Num 0.2) (Num 0))
                   (mkAngles (Num 0) (Num 0.1) (Num 0)) 0
  = PosInf.
Proof.
  split.
  - rewrite SingleFacts.single_five_still_frames.
    cbn [map takeSample velocity].
    rewrite shoulderVelocity_zero_delta_rest. reflexivity.
  - apply shoulderVelocity_zero_delta_moving. lra.
Qed.

(** ** The gripper *)

(** C7: along every run of the multi-block page the Block components
    are those of [INITIAL_BLOCKS], at most one of them sees itself
    attached, and two that do are the same block; the manual toggle
    attaches only when nothing is attached, for with a block attached
    it releases. *)
Theorem at_most_one_attached (ops : list Multi.Op) :
  let s := Multi.run ops Multi.initial in
  map fst (Multi.bodies s) = Multi.INITIAL_BLOCKS /\
  (length (filter (Multi.isAttached (Multi.attachedBlockId s))
                  (map fst (Multi.bodies s))) <= 1)%nat /\
  (forall b1 b2,
      In b1 (map fst (Multi.bodies s)) ->
      In b2 (map fst (Multi.bodies s)) ->
      Multi.isAttached (Multi.attachedBlockId s) b1 = true ->
      Multi.isAttached (Multi.attachedBlockId s) b2 = true ->
      b1 = b2) /\
  (Multi.truthy (Multi.attachedBlockId s) = true ->
   Multi.attachedBlockId (Multi.toggleGripper s) = None).
Proof.
  cbv zeta. rewrite MultiFacts.run_bodies.
  split; [reflexivity |].
  split; [apply MultiFacts.attached_count |].
  split.
  - intros b1 b2. apply MultiFacts.attached_unique.
  - intros H. apply MultiFacts.toggleGripper_releases. exact H.
Qed.

(** After the grab script the first block, and only it, is attached. *)
Lemma at_most_one_attached_witness :
  Multi.isAttached
    (Multi.attachedBlockId (Multi.run Multi.grabScript Multi.initial))
    (Multi.mkBlock 1 (vec3 4 0.5 4)) = true /\
  (length (filter (Multi.isAttached
                     (Multi.attachedBlockId
                        (Multi.run Multi.grabScript Multi.initial)))
                  (map fst (Multi.bodies
                              (Multi.run Multi.grabScript Multi.initial))))
   <= 1)%nat.
Proof.
  split.
  - rewrite (proj1 MultiFacts.grab_first_block). reflexivity.
  - exact (proj1 (proj2 (at_most_one_attached Multi.grabScript))).
Defined.

(** C10: on the multi-block page every operation preserves "a block is
    attached only while the gripper is closed", so the property holds
    along every run, while a closed gripper with nothing attached is
    reached by closing it away from every block; the single-block page
    keeps the same property of its [hasBlock] flag. *)
Theorem attached_implies_gripping :
  (forall r o, Multi.gripInv r -> Multi.gripInv (Multi.step r o)) /\
  (forall ops,
      Multi.attachedBlockId (Multi.run ops Multi.initial) <> None ->
      Multi.isGripping (Multi.run ops Multi.initial) = true) /\
  (Multi.isGripping (Multi.run Multi.emptyGraspScript Multi.initial) = true /\
   Multi.attachedBlockId (Multi.run Multi.emptyGraspScript Multi.initial)
   = None) /\
  (forall r o, Single.gripInv r -> Single.gripInv (Single.step r o)) /\
  (forall ops,
      Single.hasBlock (Single.run ops Single.initial) = true ->
      Single.isGripping (Single.run ops Single.initial) = true).
Proof.
  split; [exact MultiFacts.multi_step_gripInv |].
  split.
  { intros ops.
    apply (MultiFacts.multi_run_invariant Multi.gripInv).
    - exact MultiFacts.multi_step_gripInv.
    - unfold Multi.gripInv. cbn. congruence. }
  split; [exact MultiFacts.empty_grasp |].
  split; [exact SingleFacts.single_step_gripInv |].
  intros ops.
  apply (SingleFacts.single_run_invariant Single.gripInv).
  - exact SingleFacts.single_step_gripInv.
  - unfold Single.gripInv. cbn. congruence.
Qed.

Lemma grabbed_block_attached :
  Multi.attachedBlockId (Multi.run Multi.grabScript Multi.initial) <> None.
Proof. rewrite (proj1 MultiFacts.grab_first_block). discriminate. Qed.

(** After the grab script a block is attached and the gripper closed. *)
Lemma attached_implies_gripping_witness :
  Multi.attachedBlockId (Multi.run Multi.grabScript Multi.initial) <> None /\
  Multi.isGripping (Multi.run Multi.grabScript Multi.initial) = true.
Proof.
  split.
  - exact grabbed_block_attached.
  - exact (proj1 (proj2 attached_implies_gripping)
                 Multi.grabScript grabbed_block_attached).
Defined.

(** ** The auto sequence *)

(** C4: starting the auto sequence while a block is held should change
    nothing.  The single-block page does reject it, by the guard of
    [startAutoSequence] and by its disabled button.  The multi-block
    page does not: after the operator has grabbed the first block,
    AUTO PICK is still enabled and pressing it changes the state: the
    mode becomes [AUTO_PICK] with the block attached, and no number of
    frames brings it back to manual (the phase stays [IDLE]). *)
Theorem auto_pick_accepted_while_holding :
  let r := Multi.run Multi.grabScript Multi.initial in
  let s := Multi.step r Multi.ClickAutoPick in
  Multi.attachedBlockId r = Some 1%nat /\
  Multi.mode r = Multi.MANUAL /\
  Multi.autoPhase r = IDLE /\
  Multi.mode s = Multi.AUTO_PICK /\
  s <> r /\
  Multi.attachedBlockId s = Some 1%nat /\
  (forall deltas,
      let t := Multi.run (map Multi.Frame deltas) s in
      Multi.mode t = Multi.AUTO_PICK /\ Multi.autoPhase t = IDLE /\
      Multi.attachedBlockId t = Some 1%nat) /\
  (forall q : Single.State,
      Single.hasBlock q = true ->
      Single.startAutoSequence q = q /\
      Single.step q Single.ClickAutoSeq = q).
Proof.
  cbv zeta.
  destruct MultiFacts.grab_first_block as (Hatt & Hgrip & Hmode & Hphase).
  set (r := Multi.run Multi.grabScript Multi.initial) in *.
  assert (Hs : Multi.step r Multi.ClickAutoPick
               = Multi.setMode Multi.AUTO_PICK r).
  { unfold Multi.step. rewrite Hmode. reflexivity. }
  rewrite Hs.
  split; [exact Hatt |]. split; [exact Hmode |]. split; [exact Hphase |].
  split; [reflexivity |].
  split.
  { intros Heq. apply (f_equal Multi.mode) in Heq.
    cbn [Multi.mode Multi.setMode] in Heq. congruence. }
  split; [exact Hatt |].
  split.
  - intros deltas.
    destruct (MultiFacts.frames_auto_idle deltas
                (Multi.setMode Multi.AUTO_PICK r) eq_refl Hphase)
      as (Hm & Hp & _ & _ & Ha).
    cbv zeta in *. cbn [Multi.attachedBlockId Multi.setMode] in Ha.
    rewrite Ha. auto.
  - exact SingleFacts.startAutoSequence_rejected.
Qed.

(** ** Replay *)






(* ================================================================= *)
(** * Further properties: the solver and the chain *)

















(* ================================================================= *)
(** * Further properties: samples, blocks and moves *)

(* ================================================================= *)
(** * Further properties: samples, blocks and moves *)

(** X4: a sample taken from a finite shoulder angle has a finite torque:
    between 0 and 1 with nothing carried, between 0.5 and 2.5 while
    carrying; and over a non-zero elapsed time its velocity is finite,
    not negative, and zero exactly when the shoulder did not move. *)
Theorem sample_bounds (count : nat) (now before : JointAngles) (delta : R)
  (carrying : bool) (n p : R) :
  shoulder now = Num n ->
  shoulder before = Num p ->
  delta <> 0 ->
  exists v t : R,
    velocity (takeSample count now before delta carrying) = Num v /\
    torque (takeSample count now before delta carrying) = Num t /\
    0 <= v /\ (v = 0 <-> n = p) /\
    (carrying = false -> 0 <= t <= 1) /\
    (carrying = true -> 0.5 <= t <= 2.5).
Proof.
  intros Hn Hp Hd.
  exists (Rabs ((n + - p) / delta)), (Rabs (cos n + (if carrying then 1.5 else 0))).
  unfold takeSample, shoulderVelocity, totalTorque; cbn [velocity torque].
  rewrite Hn, Hp. unfold jsub; cbn [jneg jadd jcos jabs].
  rewrite jdiv_num by exact Hd. cbn [jabs].
  pose proof (COS_bound n) as [Hlo Hhi].
  split; [reflexivity |]. split; [reflexivity |].
  split; [apply Rabs_pos |].
  split.
  - split.
    + intros Hz.
      destruct (Req_dec ((n + - p) / delta) 0) as [Hq | Hq].
      * assert (Hm : (n + - p) / delta * delta = n + - p) by (field; exact Hd).
        rewrite Hq in Hm. lra.
      * apply Rabs_no_R0 in Hq. contradiction.
    + intros ->. replace ((p + - p) / delta) with 0 by (field; exact Hd).
      apply Rabs_R0.
  - split; intros ->.
    + rewrite Rplus_0_r. unfold Rabs. destruct (Rcase_abs (cos n)); lra.
    + unfold Rabs. destruct (Rcase_abs (cos n + 1.5)); lra.
Qed.

(** A sample over a sixtieth of a second while carrying a block. *)
Lemma sample_bounds_witness :
  exists v t : R,
    velocity (takeSample 5 (mkAngles (Num 0) (Num 0.2) (Num 0))
                (mkAngles (Num 0) (Num 0.1) (Num 0)) (1 / 60) true) = Num v /\
    torque (takeSample 5 (mkAngles (Num 0) (Num 0.2) (Num 0))
              (mkAngles (Num 0) (Num 0.1) (Num 0)) (1 / 60) true) = Num t /\
    0 <= v /\ (v = 0 <-> 0.2 = 0.1) /\
    (true = false -> 0 <= t <= 1) /\
    (true = true -> 0.5 <= t <= 2.5).
Proof.
  exact (sample_bounds 5 (mkAngles (Num 0) (Num 0.2) (Num 0))
           (mkAngles (Num 0) (Num 0.1) (Num 0)) (1 / 60) true 0.2 0.1
           eq_refl eq_refl sixtieth_nonzero).
Defined.

(** ** Blocks *)

Lemma blockFrame_free_cases (tp : Vec3) (b : BlockBody) :
  let x := vx (position b) in
  let y := vy (position b) in
  let z := vz (position b) in
  let v := velocityY b in
  (y <= 0.5 /\ blockFrame false tp b = mkBody (vec3 x 0.5 z) 0) \/
  (0.5 < y /\ y + (v - 0.02) <= 0.5 /\
   blockFrame false tp b = mkBody (vec3 x 0.5 z) 0) \/
  (0.5 < y /\ 0.5 < y + (v - 0.02) /\
   blockFrame false tp b = mkBody (vec3 x (y + (v - 0.02)) z) (v - 0.02)).
Proof.
  cbv zeta. unfold blockFrame.
  destruct (Rlt_dec 0.5 (vy (position b))) as [Hhigh | Hlow];
    cbn [position velocityY vx vy vz].
  - destruct (Rle_dec (vy (position b) + (velocityY b - 0.02)) 0.5).
    + right; left. auto.
    + right; right. split; [exact Hhigh |]. split; [lra | reflexivity].
  - destruct (Rle_dec (vy (position b)) 0.5); [| lra].
    left. split; [lra | reflexivity].
Qed.

(** X5: the frame of a block that is not attached never leaves it below
    the floor level 0.5, keeps its x and z, and never gives it an upward
    velocity; the frame of an attached block puts it at the position
    handed down, with no velocity. *)
Theorem blockFrame_floor (tp : Vec3) (b : BlockBody) :
  0.5 <= vy (position (blockFrame false tp b)) /\
  vx (position (blockFrame false tp b)) = vx (position b) /\
  vz (position (blockFrame false tp b)) = vz (position b) /\
  (velocityY b <= 0 -> velocityY (blockFrame false tp b) <= 0) /\
  (vy (position (blockFrame false tp b)) = 0.5 ->
   velocityY (blockFrame false tp b) = 0) /\
  blockFrame true tp b = mkBody tp 0.
Proof.
  destruct (blockFrame_free_cases tp b)
    as [(H & ->) | [(H1 & H2 & ->) | (H1 & H2 & ->)]];
    cbn [position velocityY vx vy vz]; repeat split; try reflexivity; lra.
Qed.

(** The frames of a free block, one after the other. *)
Lemma free_fall_lands (tp : Vec3) (k : nat) :
  forall b : BlockBody,
    velocityY b <= 0 ->
    vy (position b) <= 0.5 + INR k * 0.02 ->
    exists n : nat,
      (n <= S k)%nat /\
      Nat.iter n (blockFrame false tp) b
      = mkBody (vec3 (vx (position b)) 0.5 (vz (position b))) 0.
Proof.
  induction k as [| k IH]; intros b Hv Hy.
  - exists 1%nat. split; [lia |]. cbn [Nat.iter nat_rect INR] in *.
    destruct (blockFrame_free_cases tp b)
      as [(H & ->) | [(H1 & H2 & ->) | (H1 & H2 & _)]];
      try reflexivity; lra.
  - destruct (blockFrame_free_cases tp b)
      as [(H & E) | [(H1 & H2 & E) | (H1 & H2 & E)]].
    + exists 1%nat. split; [lia |]. exact E.
    + exists 1%nat. split; [lia |]. exact E.
    + destruct (IH (blockFrame false tp b)) as (n & Hn & En).
      * rewrite E. cbn [velocityY]. lra.
      * rewrite E. cbn [position vy]. rewrite S_INR in Hy. lra.
      * exists (S n). split; [lia |].
        rewrite Nat.iter_succ_r, En, E. reflexivity.
Qed.

(** X6: a free block that is not moving upwards comes to rest on the
    floor after finitely many frames, straight below where it was, and
    then stays there. *)
Theorem free_block_lands (tp : Vec3) (b : BlockBody) :
  velocityY b <= 0 ->
  exists n : nat,
    Nat.iter n (blockFrame false tp) b
    = mkBody (vec3 (vx (position b)) 0.5 (vz (position b))) 0 /\
    forall m : nat,
      Nat.iter (m + n) (blockFrame false tp) b
      = mkBody (vec3 (vx (position b)) 0.5 (vz (position b))) 0.
Proof.
  intros Hv.
  destruct (INR_unbounded (vy (position b) / 0.02)) as [k Hk].
  assert (Hy : vy (position b) <= 0.5 + INR k * 0.02).
  { apply Rmult_lt_compat_r with (r := 0.02) in Hk; [| lra].
    replace (vy (position b) / 0.02 * 0.02) with (vy (position b)) in Hk
      by (field; lra).
    lra. }
  destruct (free_fall_lands tp k b Hv Hy) as (n & _ & En).
  exists n. split; [exact En |].
  induction m as [| m IHm]; [exact En |].
  cbn [Nat.add Nat.iter nat_rect]. 
  change (blockFrame false tp (Nat.iter (m + n) (blockFrame false tp) b)
          = mkBody (vec3 (vx (position b)) 0.5 (vz (position b))) 0).
  rewrite IHm. apply blockFrame_rest.
Qed.

Lemma released_not_rising : velocityY (mkBody (vec3 0 3 0) 0) <= 0.
Proof. cbn [velocityY]. lra. Qed.

(** A block released at height 3 above the origin. *)
Lemma free_block_lands_witness :
  exists n : nat,
    Nat.iter n (blockFrame false (vec3 0 0 0)) (mkBody (vec3 0 3 0) 0)
    = mkBody (vec3 (vx (position (mkBody (vec3 0 3 0) 0))) 0.5
                   (vz (position (mkBody (vec3 0 3 0) 0)))) 0 /\
    forall m : nat,
      Nat.iter (m + n) (blockFrame false (vec3 0 0 0)) (mkBody (vec3 0 3 0) 0)
      = mkBody (vec3 (vx (position (mkBody (vec3 0 3 0) 0))) 0.5
                     (vz (position (mkBody (vec3 0 3 0) 0)))) 0.
Proof.
  exact (free_block_lands (vec3 0 0 0) (mkBody (vec3 0 3 0) 0)
           released_not_rising).
Defined.

(** ** Timestamps of the history *)

Lemma tick_quotient_same (count : nat) :
  (S count mod 5 <> 0 -> S count / 5 = count / 5)%nat.
Proof.
  intros H.
  pose proof (Nat.div_mod_eq count 5). pose proof (Nat.div_mod_eq (S count) 5).
  pose proof (Nat.mod_upper_bound count 5).
  pose proof (Nat.mod_upper_bound (S count) 5). lia.
Qed.

Lemma tick_quotient_next (count : nat) :
  (S count mod 5 = 0 -> S count / 5 = S (count / 5) /\ S count = 5 * S (count / 5))%nat.
Proof.
  intros H.
  pose proof (Nat.div_mod_eq count 5). pose proof (Nat.div_mod_eq (S count) 5).
  pose proof (Nat.mod_upper_bound count 5).
  pose proof (Nat.mod_upper_bound (S count) 5). lia.
Qed.

Lemma stamped_no_tick (capacity count : nat) (history : list Sample) :
  (S count mod 5 <> 0)%nat ->
  stampedHistory capacity count history ->
  stampedHistory capacity (S count) history.
Proof.
  intros Htick [Hlen Htimes]. unfold stampedHistory.
  rewrite (tick_quotient_same count Htick). split; assumption.
Qed.

Lemma stamped_tick (capacity count : nat) (history : list Sample) (x : Sample) :
  (0 < capacity)%nat ->
  (S count mod 5 = 0)%nat ->
  time x = S count ->
  stampedHistory capacity count history ->
  stampedHistory capacity (S count) (pushSample capacity history x).
Proof.
  intros Hcap Htick Hx [Hlen Htimes]. unfold stampedHistory.
  destruct (tick_quotient_next count Htick) as [Hq Hc].
  rewrite Hq. set (q := (count / 5)%nat) in *.
  destruct (Nat.lt_ge_cases (length history) capacity) as [Hroom | Hfull].
  - rewrite pushSample_room by exact Hroom.
    rewrite length_app, map_app. cbn [length map].
    assert (Hl : length history = q) by lia.
    split; [lia |].
    rewrite Htimes, Hx, Hc, Hl.
    replace (q - q + 1)%nat with 1%nat by lia.
    replace (S q - (q + 1) + 1)%nat with 1%nat by lia.
    replace (q + 1)%nat with (S q) by lia.
    rewrite seq_S, map_app. cbn [map]. 
    replace (1 + q)%nat with (S q) by lia. reflexivity.
  - assert (Hl : length history = capacity) by lia.
    rewrite pushSample_evicts_oldest by assumption.
    destruct history as [| y history]; [cbn [length] in Hl; lia |].
    cbn [tl]. rewrite length_app, map_app. cbn [length map] in *.
    split; [lia |].
    injection Htimes as _ Htl. rewrite Htl, Hx, Hc.
    replace (length history + 1)%nat with (S (length history)) by lia.
    rewrite seq_S, map_app. cbn [map].
    replace (S q - S (length history) + 1)%nat
      with (S (q - S (length history) + 1)) by lia.
    replace (S (q - S (length history) + 1) + length history)%nat
      with (S q) by lia.
    reflexivity.
Qed.

Lemma stamped_start (capacity : nat) : stampedHistory capacity 0 [].
Proof. unfold stampedHistory. cbn. split; reflexivity. Qed.

(** ** Moves of the target *)

(** A step of length [speed] straight towards [dest] leaves the distance
    [|D - speed|]: a step longer than the distance [D] passes the
    destination by the excess. *)
Lemma step_towards_distance (p dest : Vec3) (speed : R) :
  0 < distanceTo p dest ->
  distanceTo (add p (multiplyScalar (normalize (subVectors dest p)) speed)) dest
  = Rabs (distanceTo p dest - speed).
Proof.
  intros Hpos.
  destruct p as [px py pz], dest as [wx wy wz].
  unfold distanceTo in *. cbv zeta in *. cbn [vx vy vz] in *.
  set (q := (px - wx) * (px - wx) + (py - wy) * (py - wy)
            + (pz - wz) * (pz - wz)) in *.
  set (D := sqrt q) in *.
  assert (Hq : 0 <= q).
  { unfold q. repeat apply Rplus_le_le_0_compat; apply Rle_0_sqr. }
  assert (HD : D * D = q) by (apply sqrt_sqrt; exact Hq).
  unfold normalize, subVectors, vlength, multiplyScalar, add.
  cbv zeta. cbn [vx vy vz].
  replace ((wx - px) * (wx - px) + (wy - py) * (wy - py)
           + (wz - pz) * (wz - pz))
    with q by (unfold q; ring).
  fold D.
  destruct (Req_dec_T D 0) as [Hz | Hnz]; [lra |].
  match goal with |- sqrt ?e = _ =>
    replace e with (Rsqr (D - speed))
  end.
  - apply sqrt_Rsqr_abs.
  - unfold Rsqr.
    transitivity (q * ((1 - speed / D) * (1 - speed / D))).
    + rewrite <- HD. field. exact Hnz.
    + unfold q. field. exact Hnz.
Qed.

Lemma step_at_destination (p : Vec3) (speed : R) :
  add p (multiplyScalar (normalize (subVectors p p)) speed) = p.
Proof. rewrite normalize_zero. apply add_zero_step. Qed.

Lemma distanceTo_zero (p q : Vec3) : distanceTo p q = 0 -> p = q.
Proof.
  destruct p as [px py pz], q as [qx qy qz].
  unfold distanceTo. cbv zeta. cbn [vx vy vz]. intros H.
  apply sqrt_eq_0 in H.
  2:{ repeat apply Rplus_le_le_0_compat; apply Rle_0_sqr. }
  pose proof (Rle_0_sqr (px - qx)) as Hx.
  pose proof (Rle_0_sqr (py - qy)) as Hy.
  pose proof (Rle_0_sqr (pz - qz)) as Hz.
  unfold Rsqr in Hx, Hy, Hz.
  assert (Ex : (px - qx) * (px - qx) = 0) by lra.
  assert (Ey : (py - qy) * (py - qy) = 0) by lra.
  assert (Ez : (pz - qz) * (pz - qz) = 0) by lra.
  apply Rmult_integral in Ex, Ey, Ez.
  f_equal; [destruct Ex | destruct Ey | destruct Ez]; lra.
Qed.

(** A step no longer than the threshold, taken from within the threshold,
    ends within the threshold. *)
Lemma step_stays_near (p dest : Vec3) (speed eps : R) :
  0 <= speed <= eps ->
  distanceTo p dest < eps ->
  distanceTo (add p (multiplyScalar (normalize (subVectors dest p)) speed)) dest
  < eps.
Proof.
  intros Hs Hd.
  pose proof (distanceTo_nonneg p dest) as Hpos.
  destruct (Req_dec (distanceTo p dest) 0) as [Hz | Hnz].
  - apply distanceTo_zero in Hz. subst dest.
    rewrite step_at_destination, distanceTo_self. lra.
  - rewrite step_towards_distance by lra.
    unfold Rabs. destruct (Rcase_abs (distanceTo p dest - speed)); lra.
Qed.

(* ================================================================= *)
(** * Further properties: the single-block page *)

Lemma lerp_from_NaN (e sp : jsnum) : lerp NaN e sp = NaN.
Proof. reflexivity. Qed.



Module SingleMore.

Import Single SingleFacts.

Lemma single_step_counters (r : State) (o : Op) :
  frameCount (step r o)
  = match o with Frame _ => S (frameCount r) | _ => frameCount r end.
Proof. destruct o; by_cases r; reflexivity. Qed.

Lemma single_step_quiet (r : State) (o : Op) :
  match o with
  | Frame _ => True
  | _ => telemetryData (step r o) = telemetryData r /\
         smoothAngles (step r o) = smoothAngles r
  end.
Proof. destruct o; [exact I | ..]; by_cases r; split; reflexivity. Qed.

Lemma single_step_stamped (r : State) (o : Op) :
  stampedHistory 50 (frameCount r) (telemetryData r) ->
  stampedHistory 50 (frameCount (step r o)) (telemetryData (step r o)).
Proof.
  intros H. rewrite single_step_counters.
  pose proof (single_step_quiet r o) as Hq.
  destruct o as [delta | | p | |];
    try (rewrite (proj1 Hq); exact H).
  cbn [step]. rewrite single_frame_telemetry.
  destruct (S (frameCount r) mod 5 =? 0)%nat eqn:Htick.
  - apply Nat.eqb_eq in Htick. apply stamped_tick; auto. lia.
  - apply Nat.eqb_neq in Htick. apply stamped_no_tick; auto.
Qed.

(** A frame while the sequence is idle: only smoothing and telemetry. *)
Lemma single_idle_frame (delta : R) (r : State) :
  autoPhase r = IDLE ->
  autoPhase (frame delta r) = IDLE /\
  ikTarget (frame delta r) = ikTarget r /\
  desiredAngles (frame delta r) = desiredAngles r /\
  isGripping (frame delta r) = isGripping r /\
  hasBlock (frame delta r) = hasBlock r /\
  blockPosRef (frame delta r) = blockPosRef r /\
  body (frame delta r) = body r.
Proof.
  intros Hp. unfold frame, autoSequence. rewrite Hp. cbn [phase_eqb].
  cases; fields; repeat split; try reflexivity; assumption.
Qed.



Lemma subTarget_by_phase (r : State) :
  subTarget r
  = match autoPhase r with
    | IDLE => vec3 0 0 0
    | APPROACH =>
        vec3 (vx (blockPosRef r)) (vy (blockPosRef r) + 2) (vz (blockPosRef r))
    | DESCEND =>
        vec3 (vx (blockPosRef r)) (vy (blockPosRef r)) (vz (blockPosRef r))
    | LIFT => vec3 (vx (blockPosRef r)) 3 (vz (blockPosRef r))
    | MOVE_TO_ZONE => vec3 (-4) 3 0
    | LOWER_TO_DROP => vec3 (-4) 0.8 0
    | RETRACT => vec3 0 3 0
    end.
Proof.
  unfold subTarget, autoSwitch.
  destruct (autoPhase r); cbv zeta; try reflexivity;
    match goal with |- context [Rlt_dec ?a ?b] => destruct (Rlt_dec a b) end;
    reflexivity.
Qed.

(** A frame while a phase runs. *)
Lemma single_running_frame (delta : R) (r : State) :
  autoPhase r <> IDLE ->
  ikTarget (frame delta r)
  = add (ikTarget r)
        (multiplyScalar (normalize (subVectors (subTarget r) (ikTarget r)))
                        (6 * delta)) /\
  blockPosRef (frame delta r) = blockPosRef r /\
  body (frame delta r) = body r /\
  (arrived r ->
   autoPhase (frame delta r) = followingPhase (autoPhase r) /\
   hasBlock (frame delta r) = gripAfter (autoPhase r) (hasBlock r) /\
   isGripping (frame delta r) = gripAfter (autoPhase r) (isGripping r)) /\
  (~ arrived r ->
   autoPhase (frame delta r) = autoPhase r /\
   hasBlock (frame delta r) = hasBlock r /\
   isGripping (frame delta r) = isGripping r).
Proof.
  intros Hrun. unfold arrived. rewrite subTarget_by_phase.
  unfold frame, autoSequence, autoSwitch.
  destruct (autoPhase r) eqn:Hp; [contradiction | ..];
    cbn [phase_eqb followingPhase gripAfter]; cbv zeta;
    match goal with |- context [Rlt_dec ?a ?b] =>
      destruct (Rlt_dec a b) as [Hnear | Hfar]
    end;
    cbn [phase_eqb]; cases; fields;
    repeat split; try reflexivity; try assumption;
    intros; try contradiction; repeat split; try reflexivity; assumption.
Qed.

End SingleMore.

Module SingleExtras.

Import Single SingleFacts SingleMore.

(** X7: on the single-block page, after any sequence of frames and
    operator actions, the telemetry history holds the samples of the
    latest sampling frames and nothing else: with [c] frames run its
    length is min (c / 5, 50) and its timestamps are the consecutive
    multiples of 5 that end at the last multiple of 5 not above [c]. *)
Theorem single_history_timestamps (ops : list Op) :
  let s := run ops initial in
  stampedHistory 50 (frameCount s) (telemetryData s).
Proof.
  apply (single_run_invariant
           (fun s => stampedHistory 50 (frameCount s) (telemetryData s))).
  - intros r o. apply single_step_stamped.
  - apply stamped_start.
Qed.






(** X13: the phases of the single-block page follow one another in the
    order of the cycle, and the operator is locked out while it runs.
    Any step leaves the phase as it is or moves it to the following
    phase; it starts only from idle, by AUTO SEQ, with nothing held; the
    held flag changes while a phase runs only by the grab that ends
    DESCEND and the release that ends LOWER_TO_DROP; and while a phase
    runs, dragging the target and both buttons change nothing. *)
Theorem single_phase_order (r : State) (o : Op) :
  (autoPhase (step r o) = autoPhase r \/
   (autoPhase r <> IDLE /\ (exists delta, o = Frame delta) /\
    autoPhase (step r o) = followingPhase (autoPhase r) /\
    hasBlock (step r o) = gripAfter (autoPhase r) (hasBlock r) /\
    isGripping (step r o) = gripAfter (autoPhase r) (isGripping r)) \/
   (autoPhase r = IDLE /\ o = ClickAutoSeq /\ hasBlock r = false /\
    autoPhase (step r o) = APPROACH)) /\
  (autoPhase r <> IDLE -> autoPhase (step r o) = autoPhase r ->
   hasBlock (step r o) = hasBlock r /\ isGripping (step r o) = isGripping r) /\
  (autoPhase r <> IDLE ->
   forall p, step r (DragTarget p) = r /\ step r ClickAutoSeq = r /\
             step r ClickGripper = r).
Proof.
  assert (Hlock : autoPhase r <> IDLE ->
            forall p, step r (DragTarget p) = r /\ step r ClickAutoSeq = r /\
                      step r ClickGripper = r).
  { intros Hrun p. cbn [step]. unfold isAuto.
    destruct (autoPhase r); [contradiction | ..];
      cbn [phase_eqb negb orb]; auto. }
  split; [| split; [| exact Hlock]].
  - destruct o as [delta | | p | |].
    + cbn [step].
      destruct (phase_eqb (autoPhase r) IDLE) eqn:Hidle.
      * left. assert (Hp : autoPhase r = IDLE)
          by (destruct (autoPhase r); try discriminate; reflexivity).
        rewrite Hp. apply (single_idle_frame delta r Hp).
      * assert (Hrun : autoPhase r <> IDLE)
          by (intros E; rewrite E in Hidle; discriminate).
        destruct (single_running_frame delta r Hrun) as (_ & _ & _ & Ea & En).
        destruct (Rlt_dec (distanceTo (ikTarget r) (subTarget r)) 0.1)
          as [Hnear | Hfar].
        -- right; left. destruct (Ea Hnear) as (? & ? & ?). eauto 10.
        -- left. apply (En Hfar).
    + left. cbn [step]. unfold blockTick. fields. reflexivity.
    + left. cbn [step]. destruct (isAuto r); [reflexivity |].
      unfold handleTargetMove. cases; fields; reflexivity.
    + cbn [step]. unfold isAuto.
      destruct (autoPhase r) eqn:Hp; cbn [phase_eqb negb orb]; auto.
      destruct (hasBlock r) eqn:Hb; cbn [orb]; [left; exact Hp |].
      right; right. unfold startAutoSequence. rewrite Hb. fields. auto.
    + left. cbn [step]. destruct (isAuto r); [reflexivity |].
      unfold toggleGripper. cases; fields; reflexivity.
  - intros Hrun Hsame.
    destruct o as [delta | | p | |];
      try (rewrite (proj1 (Hlock Hrun (vec3 0 0 0))); auto; fail);
      try (rewrite (proj1 (proj2 (Hlock Hrun (vec3 0 0 0)))); auto; fail);
      try (rewrite (proj2 (proj2 (Hlock Hrun (vec3 0 0 0)))); auto; fail).
    + cbn [step] in *.
      destruct (single_running_frame delta r Hrun) as (_ & _ & _ & Ea & En).
      destruct (Rlt_dec (distanceTo (ikTarget r) (subTarget r)) 0.1)
        as [Hnear | Hfar].
      * destruct (Ea Hnear) as (Ep & Eh & Eg). rewrite Eh, Eg.
        rewrite Ep in Hsame.
        destruct (autoPhase r); try discriminate; contradiction.
      * destruct (En Hfar) as (_ & ? & ?). auto.
    + cbn [step]. unfold blockTick. fields. auto.
    + rewrite (proj1 (Hlock Hrun p)). auto.
Qed.

End SingleExtras.

(** ** The automatic sequence, tick by tick *)

Module SingleCycle.

Import Single SingleFacts SingleMore.

Lemma tick_unfold (delta : R) (r : State) :
  tick delta r = frame delta (blockTick r).
Proof. reflexivity. Qed.

Lemma blockTick_fields (r : State) :
  autoPhase (blockTick r) = autoPhase r /\
  ikTarget (blockTick r) = ikTarget r /\
  hasBlock (blockTick r) = hasBlock r /\
  isGripping (blockTick r) = isGripping r /\
  body (blockTick r)
  = blockFrame (hasBlock r) (carriedPosition (ikTarget r)) (body r) /\
  blockPosRef (blockTick r)
  = position (blockFrame (hasBlock r) (carriedPosition (ikTarget r)) (body r)).
Proof. unfold blockTick. fields. repeat split; reflexivity. Qed.

(** The state before a tick and what the tick makes of it while a phase
    runs: the block's frame first, then the controller's. *)
Lemma running_tick (delta : R) (r : State) :
  autoPhase r <> IDLE ->
  ikTarget (tick delta r)
  = add (ikTarget r)
        (multiplyScalar
           (normalize (subVectors (subTarget (blockTick r)) (ikTarget r)))
           (6 * delta)) /\
  body (tick delta r)
  = blockFrame (hasBlock r) (carriedPosition (ikTarget r)) (body r) /\
  (arrived (blockTick r) ->
   autoPhase (tick delta r) = followingPhase (autoPhase r) /\
   hasBlock (tick delta r) = gripAfter (autoPhase r) (hasBlock r) /\
   isGripping (tick delta r) = gripAfter (autoPhase r) (isGripping r)) /\
  (~ arrived (blockTick r) ->
   autoPhase (tick delta r) = autoPhase r /\
   hasBlock (tick delta r) = hasBlock r /\
   isGripping (tick delta r) = isGripping r).
Proof.
  intros Hrun. rewrite tick_unfold.
  destruct (blockTick_fields r) as (Hp & Ht & Hb & Hg & Hbody & _).
  destruct (single_running_frame delta (blockTick r)) as (Et & _ & Eb & Ea & En).
  { rewrite Hp. exact Hrun. }
  rewrite Hp, Ht, Hb, Hg, Hbody in *. auto.
Qed.

Lemma arrived_tick_distance (r : State) :
  arrived (blockTick r)
  <-> distanceTo (ikTarget r) (subTarget (blockTick r)) < 0.1.
Proof.
  unfold arrived. rewrite (proj1 (proj2 (blockTick_fields r))). reflexivity.
Qed.

Section Phase.

Variable delta : R.
Hypothesis Hdelta : 0 < 6 * delta <= 0.1.

Variable holds : State -> Prop.
Variable phase : Phase.
Variable dest : Vec3.

Hypothesis Hphase : phase <> IDLE.
Hypothesis Hdest :
  forall r, holds r -> autoPhase r = phase -> subTarget (blockTick r) = dest.
Hypothesis Hkeep :
  forall r, holds r -> autoPhase r = phase -> ~ arrived (blockTick r) ->
            holds (tick delta r).

Lemma approach_within (n : nat) :
  forall r : State,
    holds r -> autoPhase r = phase ->
    distanceTo (ikTarget r) dest < 0.1 + INR n * (6 * delta) ->
    exists (m : nat) (r1 : State),
      r1 = Nat.iter m (tick delta) r /\
      holds r1 /\ autoPhase r1 = phase /\ arrived (blockTick r1).
Proof.
  induction n as [| n IH]; intros r Hr Hp Hd.
  - exists 0%nat, r. cbn [Nat.iter nat_rect INR] in *.
    repeat split; try assumption.
    apply arrived_tick_distance. rewrite (Hdest r Hr Hp). lra.
  - destruct (Rlt_dec (distanceTo (ikTarget r) dest) 0.1) as [Hnear | Hfar].
    + exists 0%nat, r. cbn [Nat.iter nat_rect].
      repeat split; try assumption.
      apply arrived_tick_distance. rewrite (Hdest r Hr Hp). exact Hnear.
    + assert (Hna : ~ arrived (blockTick r)).
      { rewrite arrived_tick_distance, (Hdest r Hr Hp). exact Hfar. }
      destruct (running_tick delta r) as (Et & _ & _ & En).
      { rewrite Hp. exact Hphase. }
      destruct (En Hna) as (Ep & _ & _).
      rewrite (Hdest r Hr Hp) in Et.
      destruct (IH (tick delta r)) as (m & r1 & E1 & H1 & P1 & A1).
      * apply Hkeep; assumption.
      * rewrite Ep. exact Hp.
      * rewrite Et, step_towards_closer by lra.
        rewrite S_INR in Hd. lra.
      * exists (S m), r1. rewrite Nat.iter_succ_r.
        repeat split; assumption.
Qed.

(** The phase ends: some tick finds the target within the threshold. *)
Lemma phase_ends (r : State) :
  holds r -> autoPhase r = phase ->
  exists (m : nat) (r1 : State),
    r1 = Nat.iter m (tick delta) r /\
    holds r1 /\ autoPhase r1 = phase /\
    distanceTo (ikTarget r1) dest < 0.1 /\
    autoPhase (tick delta r1) = followingPhase phase /\
    hasBlock (tick delta r1) = gripAfter phase (hasBlock r1) /\
    isGripping (tick delta r1) = gripAfter phase (isGripping r1) /\
    body (tick delta r1)
    = blockFrame (hasBlock r1) (carriedPosition (ikTarget r1)) (body r1) /\
    distanceTo (ikTarget (tick delta r1)) dest < 0.1 /\
    vx (ikTarget (tick delta r1))
    = vx (ikTarget r1)
      + (vx dest - vx (ikTarget r1))
        * (1 / (if Req_dec_T (vlength (subVectors dest (ikTarget r1))) 0
                then 1 else vlength (subVectors dest (ikTarget r1))))
        * (6 * delta) /\
    vz (ikTarget (tick delta r1))
    = vz (ikTarget r1)
      + (vz dest - vz (ikTarget r1))
        * (1 / (if Req_dec_T (vlength (subVectors dest (ikTarget r1))) 0
                then 1 else vlength (subVectors dest (ikTarget r1))))
        * (6 * delta).
Proof.
  intros Hr Hp.
  destruct (INR_unbounded (distanceTo (ikTarget r) dest / (6 * delta)))
    as [n Hn].
  assert (Hd : distanceTo (ikTarget r) dest < 0.1 + INR n * (6 * delta)).
  { apply Rmult_lt_compat_r with (r := 6 * delta) in Hn; [| lra].
    replace (distanceTo (ikTarget r) dest / (6 * delta) * (6 * delta))
      with (distanceTo (ikTarget r) dest) in Hn by (field; lra).
    lra. }
  destruct (approach_within n r Hr Hp Hd) as (m & r1 & E1 & H1 & P1 & A1).
  exists m, r1.
  destruct (running_tick delta r1) as (Et & Eb & Ea & _).
  { rewrite P1. exact Hphase. }
  destruct (Ea A1) as (Ep & Eh & Eg).
  rewrite (Hdest r1 H1 P1) in Et. rewrite P1 in Ep, Eh, Eg.
  apply arrived_tick_distance in A1. rewrite (Hdest r1 H1 P1) in A1.
  repeat split; try assumption.
  - rewrite Et. apply step_stays_near; lra.
  - rewrite Et. reflexivity.
  - rewrite Et. reflexivity.
Qed.

End Phase.

End SingleCycle.

Module SingleCycleRun.

Import Single SingleFacts SingleMore SingleCycle.

Lemma subTarget_tick (r : State) :
  subTarget (blockTick r)
  = let blk := position (blockFrame (hasBlock r)
                                    (carriedPosition (ikTarget r)) (body r)) in
    match autoPhase r with
    | IDLE => vec3 0 0 0
    | APPROACH => vec3 (vx blk) (vy blk + 2) (vz blk)
    | DESCEND => vec3 (vx blk) (vy blk) (vz blk)
    | LIFT => vec3 (vx blk) 3 (vz blk)
    | MOVE_TO_ZONE => vec3 (-4) 3 0
    | LOWER_TO_DROP => vec3 (-4) 0.8 0
    | RETRACT => vec3 0 3 0
    end.
Proof.
  rewrite subTarget_by_phase.
  destruct (blockTick_fields r) as (-> & _ & _ & _ & _ & ->). reflexivity.
Qed.

Lemma iter_join {A : Type} (f : A -> A) (m n : nat) (x y z : A) :
  y = Nat.iter m f x -> z = Nat.iter n f (f y) ->
  z = Nat.iter (n + S m) f x.
Proof.
  intros -> ->. rewrite Nat.iter_add. reflexivity.
Qed.

Lemma horizontal_distance (p q : Vec3) :
  distanceTo (vec3 (vx p) 0.5 (vz p)) (vec3 (vx q) 0.5 (vz q))
  <= distanceTo p q.
Proof.
  destruct p as [px py pz], q as [qx qy qz].
  unfold distanceTo. cbv zeta. cbn [vx vy vz].
  apply sqrt_le_1_alt.
  pose proof (Rle_0_sqr (py - qy)) as H. unfold Rsqr in H.
  replace ((0.5 - 0.5) * (0.5 - 0.5)) with 0 by ring. lra.
Qed.

Lemma coordinate_gap (p q : Vec3) :
  Rabs (vy p - vy q) <= distanceTo p q.
Proof.
  destruct p as [px py pz], q as [qx qy qz].
  unfold distanceTo. cbv zeta. cbn [vx vy vz].
  rewrite <- sqrt_Rsqr_abs. apply sqrt_le_1_alt.
  pose proof (Rle_0_sqr (px - qx)) as Hx.
  pose proof (Rle_0_sqr (pz - qz)) as Hz.
  unfold Rsqr in *. lra.
Qed.

Section Cycle.

Variable delta : R.
Hypothesis Hdelta : 0 < 6 * delta <= 0.1.

Lemma approach_phase (bx bz : R) (r : State) :
  resting bx bz r -> autoPhase r = APPROACH ->
  exists (m : nat) (r1 : State),
    r1 = Nat.iter m (tick delta) r /\
    resting bx bz (tick delta r1) /\ autoPhase (tick delta r1) = DESCEND.
Proof.
  intros Hr Hp.
  destruct (phase_ends delta Hdelta (resting bx bz) APPROACH
                       (vec3 bx (0.5 + 2) bz)) with (r := r)
    as (m & r1 & E1 & (Hb1 & Hbody1) & P1 & _ & Ep & Eh & _ & Eb & _);
    try assumption.
  - discriminate.
  - intros s (Hb & Hbody) Hs. rewrite subTarget_tick, Hs, Hb, Hbody.
    rewrite blockFrame_rest. reflexivity.
  - intros s (Hb & Hbody) Hs Hna.
    destruct (running_tick delta s) as (_ & Eb & _ & En).
    { rewrite Hs. discriminate. }
    destruct (En Hna) as (_ & Eh & _).
    split; [congruence |].
    rewrite Eb, Hb, Hbody. apply blockFrame_rest.
  - exists m, r1. split; [exact E1 |]. split; [| exact Ep].
    split.
    + rewrite Eh, Hb1. reflexivity.
    + rewrite Eb, Hb1, Hbody1. apply blockFrame_rest.
Qed.

Lemma descend_phase (bx bz : R) (r : State) :
  resting bx bz r -> autoPhase r = DESCEND ->
  exists (m : nat) (r1 : State),
    r1 = Nat.iter m (tick delta) r /\
    autoPhase (tick delta r1) = LIFT /\
    hasBlock (tick delta r1) = true /\
    isGripping (tick delta r1) = true /\
    distanceTo (ikTarget (tick delta r1)) (vec3 bx 0.5 bz) < 0.1.
Proof.
  intros Hr Hp.
  destruct (phase_ends delta Hdelta (resting bx bz) DESCEND
                       (vec3 bx 0.5 bz)) with (r := r)
    as (m & r1 & E1 & _ & P1 & _ & Ep & Eh & Eg & _ & Ed & _);
    try assumption.
  - discriminate.
  - intros s (Hb & Hbody) Hs. rewrite subTarget_tick, Hs, Hb, Hbody.
    rewrite blockFrame_rest. reflexivity.
  - intros s (Hb & Hbody) Hs Hna.
    destruct (running_tick delta s) as (_ & Eb & _ & En).
    { rewrite Hs. discriminate. }
    destruct (En Hna) as (_ & Eh & _).
    split; [congruence |].
    rewrite Eb, Hb, Hbody. apply blockFrame_rest.
  - exists m, r1. auto.
Qed.

Lemma lift_phase (r : State) :
  hasBlock r = true -> isGripping r = true -> autoPhase r = LIFT ->
  exists (m : nat) (r1 : State),
    r1 = Nat.iter m (tick delta) r /\
    holding (tick delta r1) /\ autoPhase (tick delta r1) = MOVE_TO_ZONE.
Proof.
  intros Hb Hg Hp.
  destruct (phase_ends delta Hdelta
              (lifting (vx (ikTarget r)) (vz (ikTarget r))) LIFT
              (vec3 (vx (ikTarget r)) 3 (vz (ikTarget r)))) with (r := r)
    as (m & r1 & E1 & (Hb1 & Hg1 & _) & P1 & _ & Ep & Eh & Eg & _);
    try assumption.
  - discriminate.
  - intros s (Hsb & _ & Hx & Hz) Hs.
    rewrite subTarget_tick, Hs, Hsb. cbn [blockFrame position].
    unfold carriedPosition. cbn [vx vz]. rewrite Hx, Hz. reflexivity.
  - intros s (Hsb & Hsg & Hx & Hz) Hs Hna.
    destruct (running_tick delta s) as (Et & _ & _ & En).
    { rewrite Hs. discriminate. }
    destruct (En Hna) as (_ & Eh & Eg).
    rewrite subTarget_tick, Hs, Hsb in Et. cbn [blockFrame position] in Et.
    unfold carriedPosition in Et. cbn [vx vz] in Et.
    repeat split; try congruence.
    + rewrite Et. unfold normalize. cbv zeta.
      cbn [add multiplyScalar subVectors vx]. rewrite <- Hx. ring.
    + rewrite Et. unfold normalize. cbv zeta.
      cbn [add multiplyScalar subVectors vz]. rewrite <- Hz. ring.
  - repeat split; assumption || reflexivity.
  - exists m, r1. split; [exact E1 |]. split; [| exact Ep].
    split; [rewrite Eh | rewrite Eg]; assumption.
Qed.

Lemma move_phase (r : State) :
  holding r -> autoPhase r = MOVE_TO_ZONE ->
  exists (m : nat) (r1 : State),
    r1 = Nat.iter m (tick delta) r /\
    holding (tick delta r1) /\ autoPhase (tick delta r1) = LOWER_TO_DROP.
Proof.
  intros Hr Hp.
  destruct (phase_ends delta Hdelta holding MOVE_TO_ZONE (vec3 (-4) 3 0))
    with (r := r)
    as (m & r1 & E1 & (Hb1 & Hg1) & P1 & _ & Ep & Eh & Eg & _);
    try assumption.
  - discriminate.
  - intros s _ Hs. rewrite subTarget_tick, Hs. reflexivity.
  - intros s (Hsb & Hsg) Hs Hna.
    destruct (running_tick delta s) as (_ & _ & _ & En).
    { rewrite Hs. discriminate. }
    destruct (En Hna) as (_ & Eh & Eg). split; congruence.
  - exists m, r1. split; [exact E1 |]. split; [| exact Ep].
    split; [rewrite Eh | rewrite Eg]; assumption.
Qed.

Lemma lower_phase (r : State) :
  holding r -> autoPhase r = LOWER_TO_DROP ->
  exists (m : nat) (r1 : State) (x z : R),
    r1 = Nat.iter m (tick delta) r /\
    dropped x z (tick delta r1) /\ autoPhase (tick delta r1) = RETRACT /\
    distanceTo (vec3 x 0.5 z) (vec3 (-4) 0.5 0) < 0.1.
Proof.
  intros Hr Hp.
  destruct (phase_ends delta Hdelta holding LOWER_TO_DROP (vec3 (-4) 0.8 0))
    with (r := r)
    as (m & r1 & E1 & (Hb1 & Hg1) & P1 & Hnear & Ep & Eh & Eg & Eb & _);
    try assumption.
  - discriminate.
  - intros s _ Hs. rewrite subTarget_tick, Hs. reflexivity.
  - intros s (Hsb & Hsg) Hs Hna.
    destruct (running_tick delta s) as (_ & _ & _ & En).
    { rewrite Hs. discriminate. }
    destruct (En Hna) as (_ & Eh & Eg). split; congruence.
  - exists m, r1, (vx (ikTarget r1)), (vz (ikTarget r1)).
    rewrite Hb1 in Eb. cbn [blockFrame] in Eb.
    pose proof (coordinate_gap (ikTarget r1) (vec3 (-4) 0.8 0)) as Hgap.
    pose proof (horizontal_distance (ikTarget r1) (vec3 (-4) 0.8 0)) as Hflat.
    cbn [vx vy vz] in Hgap, Hflat.
    split; [exact E1 |]. split; [| split; [exact Ep | lra]].
    unfold dropped. rewrite Eh, Eg, Eb.
    unfold carriedPosition. cbn [gripAfter position velocityY vx vy vz].
    repeat split; try reflexivity.
    unfold Rabs in Hgap.
    destruct (Rcase_abs (vy (ikTarget r1) - 0.8)); lra.
Qed.

Lemma retract_phase (x z : R) (r : State) :
  dropped x z r -> autoPhase r = RETRACT ->
  exists (m : nat) (r1 : State),
    r1 = Nat.iter m (tick delta) r /\
    autoPhase (tick delta r1) = IDLE /\
    hasBlock (tick delta r1) = false /\
    isGripping (tick delta r1) = false /\
    distanceTo (ikTarget (tick delta r1)) (vec3 0 3 0) < 0.1 /\
    body (tick delta r1) = mkBody (vec3 x 0.5 z) 0.
Proof.
  intros Hr Hp.
  assert (Hfloor : forall s, dropped x z s ->
            blockFrame (hasBlock s) (carriedPosition (ikTarget s)) (body s)
            = mkBody (vec3 x 0.5 z) 0).
  { intros s (Hsb & _ & Hx & Hz & Hy & _). rewrite Hsb.
    destruct (blockFrame_free_cases (carriedPosition (ikTarget s)) (body s))
      as [(_ & ->) | [(H1 & _) | (H1 & _)]]; [| lra | lra].
    rewrite Hx, Hz. reflexivity. }
  destruct (phase_ends delta Hdelta (dropped x z) RETRACT (vec3 0 3 0))
    with (r := r)
    as (m & r1 & E1 & H1 & P1 & _ & Ep & Eh & Eg & Eb & Ed & _);
    try assumption.
  - discriminate.
  - intros s _ Hs. rewrite subTarget_tick, Hs. reflexivity.
  - intros s Hs Hph Hna.
    destruct (running_tick delta s) as (_ & Eb & _ & En).
    { rewrite Hph. discriminate. }
    destruct (En Hna) as (_ & Eh & Eg).
    rewrite (Hfloor s Hs) in Eb.
    destruct Hs as (Hsb & Hsg & _).
    unfold dropped. rewrite Eh, Eg, Eb. cbn [position velocityY vx vy vz].
    repeat split; try assumption; try reflexivity.
  - exists m, r1. rewrite (Hfloor r1 H1) in Eb.
    destruct H1 as (Hb1 & Hg1 & _). rewrite Hb1 in Eh. rewrite Hg1 in Eg.
    auto 10.
Qed.

End Cycle.

End SingleCycleRun.

Module SingleCycleMain.

Import Single SingleFacts SingleMore SingleCycle SingleCycleRun.

(** X14: the automatic sequence of the single-block page runs to its
    end.  With the arm idle, nothing held and the block at rest on the
    floor, and frames short enough that one step does not exceed the
    arrival threshold (6 * delta <= 0.1), pressing AUTO SEQ leads after
    finitely many ticks to the block being held with the gripper closed
    within 0.1 of where the block lay, and after more ticks to the
    sequence being idle again, the gripper open, the target within 0.1
    of (0, 3, 0) and the block at rest on the floor within 0.1 of the
    centre of the drop zone. *)
Theorem auto_sequence_completes (delta bx bz : R) (r : State) :
  0 < 6 * delta <= 0.1 ->
  autoPhase r = IDLE -> hasBlock r = false ->
  body r = mkBody (vec3 bx 0.5 bz) 0 ->
  exists (n1 n2 : nat) (x z : R),
    (n1 < n2)%nat /\
    let grabbed := Nat.iter n1 (tick delta) (step r ClickAutoSeq) in
    let done := Nat.iter n2 (tick delta) (step r ClickAutoSeq) in
    autoPhase grabbed = LIFT /\ hasBlock grabbed = true /\
    isGripping grabbed = true /\
    distanceTo (ikTarget grabbed) (vec3 bx 0.5 bz) < 0.1 /\
    autoPhase done = IDLE /\ hasBlock done = false /\
    isGripping done = false /\
    distanceTo (ikTarget done) (vec3 0 3 0) < 0.1 /\
    body done = mkBody (vec3 x 0.5 z) 0 /\
    distanceTo (vec3 x 0.5 z) (vec3 (-4) 0.5 0) < 0.1.
Proof.
  intros Hdelta Hp Hb Hbody.
  set (start := step r ClickAutoSeq).
  assert (Hstart : resting bx bz start /\ autoPhase start = APPROACH).
  { unfold start. cbn [step]. unfold isAuto. rewrite Hp, Hb.
    cbn [phase_eqb negb orb]. unfold startAutoSequence. rewrite Hb.
    unfold resting. fields. auto. }
  destruct Hstart as (Hrest & Hphase).
  destruct (approach_phase delta Hdelta bx bz start Hrest Hphase)
    as (ma & ra & Ea & Hrest1 & Hp1).
  destruct (descend_phase delta Hdelta bx bz _ Hrest1 Hp1)
    as (mb & rb & Eb & Hp2 & Hb2 & Hg2 & Hd2).
  pose proof (iter_join _ _ _ _ _ _ Ea Eb) as Eb'.
  destruct (lift_phase delta Hdelta _ Hb2 Hg2 Hp2)
    as (mc & rc & Ec & Hhold3 & Hp3).
  pose proof (iter_join _ _ _ _ _ _ Eb' Ec) as Ec'.
  destruct (move_phase delta Hdelta _ Hhold3 Hp3)
    as (md & rd & Ed & Hhold4 & Hp4).
  pose proof (iter_join _ _ _ _ _ _ Ec' Ed) as Ed'.
  destruct (lower_phase delta Hdelta _ Hhold4 Hp4)
    as (me & re & x & z & Ee & Hdrop5 & Hp5 & Hzone).
  pose proof (iter_join _ _ _ _ _ _ Ed' Ee) as Ee'.
  destruct (retract_phase delta Hdelta x z _ Hdrop5 Hp5)
    as (mf & rf & Ef & Hp6 & Hb6 & Hg6 & Hd6 & Hbody6).
  pose proof (iter_join _ _ _ _ _ _ Ee' Ef) as Ef'.
  exists (S (mb + S ma)), (S (mf + S (me + S (md + S (mc + S (mb + S ma)))))).
  exists x, z.
  split; [lia |].
  cbv zeta. cbn [Nat.iter nat_rect].
  change (nat_rect (fun _ => State) start (fun _ => tick delta))
    with (fun n => Nat.iter n (tick delta) start).
  cbv beta. rewrite <- Eb', <- Ef'.
  auto 12.
Qed.

Lemma auto_sequence_witness :
  exists (n1 n2 : nat) (x z : R),
    (n1 < n2)%nat /\
    let grabbed := Nat.iter n1 (tick (1 / 60)) (step initial ClickAutoSeq) in
    let done := Nat.iter n2 (tick (1 / 60)) (step initial ClickAutoSeq) in
    autoPhase grabbed = LIFT /\ hasBlock grabbed = true /\
    isGripping grabbed = true /\
    distanceTo (ikTarget grabbed) (vec3 4 0.5 4) < 0.1 /\
    autoPhase done = IDLE /\ hasBlock done = false /\
    isGripping done = false /\
    distanceTo (ikTarget done) (vec3 0 3 0) < 0.1 /\
    body done = mkBody (vec3 x 0.5 z) 0 /\
    distanceTo (vec3 x 0.5 z) (vec3 (-4) 0.5 0) < 0.1.
Proof.
  apply (auto_sequence_completes (1 / 60) 4 4 initial).
  - lra.
  - reflexivity.
  - reflexivity.
  - reflexivity.
Defined.

End SingleCycleMain.

(* ================================================================= *)
(** * Further properties: the multi-block page *)

Module MultiMore.

Import Multi MultiFacts.

Lemma multi_step_counters (r : State) (o : Op) :
  frameCount (step r o)
  = match o with Frame _ => S (frameCount r) | _ => frameCount r end.
Proof. destruct o; by_cases r; reflexivity. Qed.

Lemma multi_step_quiet (r : State) (o : Op) :
  match o with
  | Frame _ => True
  | _ => telemetryData (step r o) = telemetryData r /\
         smoothAngles (step r o) = smoothAngles r
  end.
Proof. destruct o; [exact I | ..]; by_cases r; split; reflexivity. Qed.

Lemma multi_step_stamped (r : State) (o : Op) :
  stampedHistory 40 (frameCount r) (telemetryData r) ->
  stampedHistory 40 (frameCount (step r o)) (telemetryData (step r o)).
Proof.
  intros H. rewrite multi_step_counters.
  pose proof (multi_step_quiet r o) as Hq.
  destruct o as [delta | | p | | | | |];
    try (rewrite (proj1 Hq); exact H).
  cbn [step]. rewrite multi_frame_telemetry.
  destruct (S (frameCount r) mod 5 =? 0)%nat eqn:Htick.
  - apply Nat.eqb_eq in Htick. apply stamped_tick; auto. lia.
  - apply Nat.eqb_neq in Htick. apply stamped_no_tick; auto.
Qed.

(** A frame outside replay, with the auto pick idle. *)
Lemma multi_still_frame (delta : R) (r : State) :
  mode r <> REPLAY -> autoPhase r = IDLE ->
  mode (frame delta r) = mode r /\
  autoPhase (frame delta r) = IDLE /\
  ikTarget (frame delta r) = ikTarget r /\
  desiredAngles (frame delta r) = desiredAngles r /\
  isGripping (frame delta r) = isGripping r /\
  attachedBlockId (frame delta r) = attachedBlockId r /\
  waypoints (frame delta r) = waypoints r.
Proof.
  intros Hm Hp. unfold frame, autoPick, autoSwitch. rewrite Hp.
  destruct (mode r) eqn:Hmode; [| | contradiction];
    cbn [mode_eqb phase_eqb negb andb]; cases; fields;
    repeat split; try reflexivity; assumption.
Qed.




Lemma multi_run_autoIdle (ops : list Op) : autoPhase (run ops initial) = IDLE.
Proof.
  apply (multi_run_invariant (fun s => autoPhase s = IDLE)).
  - intros r o. apply multi_step_autoIdle.
  - reflexivity.
Qed.

Lemma multi_step_mode (r : State) (o : Op) :
  match o with
  | BlockTick | DragTarget _ | ClickGripper | ClickRecord =>
      mode (step r o) = mode r
  | ClickAutoPick =>
      mode (step r o) = mode r \/ (mode r = MANUAL /\ mode (step r o) = AUTO_PICK)
  | _ => True
  end.
Proof.
  destruct o; try exact I; by_cases r;
    solve [ reflexivity | assumption | left; reflexivity | left; assumption
          | right; split; solve [ reflexivity | assumption ] ].
Qed.


End MultiMore.

Module MultiExtras.

Import Multi MultiFacts MultiMore.

(** X8: on the multi-block page, after any sequence of frames and
    operator actions (reset included), the telemetry history holds the
    samples of the latest sampling frames and nothing else: with [c]
    frames run its length is min (c / 5, 40) and its timestamps are the
    consecutive multiples of 5 that end at the last multiple of 5 not
    above [c]. *)
Theorem multi_history_timestamps (ops : list Op) :
  let s := run ops initial in
  stampedHistory 40 (frameCount s) (telemetryData s).
Proof.
  apply (multi_run_invariant
           (fun s => stampedHistory 40 (frameCount s) (telemetryData s))).
  - intros r o. apply multi_step_stamped.
  - apply stamped_start.
Qed.





(** X15: the automatic pick of the multi-block page never starts.  In
    every state reached from the initial one the phase is IDLE; so in
    AUTO_PICK mode a frame moves nothing and changes neither the mode,
    the gripper nor the attachment, the target cannot be dragged, no
    waypoint can be recorded, and the only ways out of the mode are
    RESET and, when a program exists, PLAY. *)
Theorem auto_pick_never_starts (ops : list Op) :
  let s := run ops initial in
  autoPhase s = IDLE /\
  (mode s = AUTO_PICK ->
   (forall delta,
       mode (frame delta s) = AUTO_PICK /\
       ikTarget (frame delta s) = ikTarget s /\
       desiredAngles (frame delta s) = desiredAngles s /\
       isGripping (frame delta s) = isGripping s /\
       attachedBlockId (frame delta s) = attachedBlockId s) /\
   (forall p, step s (DragTarget p) = s) /\
   step s ClickAutoPick = s /\ step s ClickRecord = s /\
   (forall o, mode (step s o) = AUTO_PICK \/ o = ClickReset \/
              (o = ClickReplay /\ waypoints s <> []))).
Proof.
  cbv zeta. pose proof (multi_run_autoIdle ops) as Hp.
  split; [exact Hp |]. intros Hm.
  assert (Hframe : forall delta,
       mode (frame delta (run ops initial)) = AUTO_PICK /\
       ikTarget (frame delta (run ops initial)) = ikTarget (run ops initial) /\
       desiredAngles (frame delta (run ops initial))
       = desiredAngles (run ops initial) /\
       isGripping (frame delta (run ops initial))
       = isGripping (run ops initial) /\
       attachedBlockId (frame delta (run ops initial))
       = attachedBlockId (run ops initial)).
  { intros delta.
    destruct (multi_still_frame delta (run ops initial))
      as (H1 & _ & H2 & H3 & H4 & H5 & _).
    - rewrite Hm. discriminate.
    - exact Hp.
    - rewrite H1. auto. }
  split; [exact Hframe |].
  split; [intros p; cbn [step]; rewrite Hm; reflexivity |].
  split; [cbn [step]; rewrite Hm; reflexivity |].
  split; [cbn [step]; rewrite Hm; reflexivity |].
  intros o. pose proof (multi_step_mode (run ops initial) o) as Hq.
  destruct o as [delta | | p | | | | |];
    try (left; rewrite Hq; exact Hm).
  - left. apply (Hframe delta).
  - left. destruct Hq as [-> | (_ & ->)]; [exact Hm | reflexivity].
  - right; left. reflexivity.
  - cbn [step].
    destruct (waypoints (run ops initial)) as [| w l] eqn:Hw;
      cbn [length Nat.eqb]; [left; exact Hm |].
    right; right. split; [reflexivity | discriminate].
Qed.

End MultiExtras.

Module MultiScene.

Import Multi MultiFacts MultiMore.

(** ** The scans over the reported positions *)

Lemma closestScan_from (target : Vec3) (m : list (nat * Vec3)) :
  forall acc res : R * option nat,
    fold_left
      (fun acc entry =>
         let dist := distanceTo target (snd entry) in
         if Rlt_dec dist (fst acc) then (dist, Some (fst entry)) else acc)
      m acc = res ->
    fst res <= fst acc /\
    (forall e, In e m -> fst res <= distanceTo target (snd e)) /\
    (res = acc \/
     exists e, In e m /\ res = (distanceTo target (snd e), Some (fst e)) /\
               distanceTo target (snd e) < fst acc).
Proof.
  induction m as [| a m IH]; intros acc res Hres; cbn [fold_left] in Hres.
  - subst res. split; [lra |]. split; [intros e [] | left; reflexivity].
  - cbv zeta in Hres.
    destruct (Rlt_dec (distanceTo target (snd a)) (fst acc)) as [Hlt | Hge].
    + destruct (IH _ _ Hres) as (H1 & H2 & H3). cbn [fst] in H1, H3.
      split; [lra |]. split.
      * intros e [<- | He]; [exact H1 | apply H2, He].
      * right. destruct H3 as [-> | (e & He & -> & Hd)].
        -- exists a. split; [left; reflexivity |]. split; [reflexivity | exact Hlt].
        -- exists e. split; [right; exact He |]. split; [reflexivity | lra].
    + destruct (IH _ _ Hres) as (H1 & H2 & H3).
      split; [exact H1 |]. split.
      * intros e [<- | He]; [lra | apply H2, He].
      * destruct H3 as [-> | (e & He & -> & Hd)]; [left; reflexivity |].
        right. exists e. split; [right; exact He |]. split; [reflexivity | exact Hd].
Qed.

Lemma closestScan_spec (target : Vec3) (m : list (nat * Vec3)) :
  (closestScan target m = (1.5, None) /\
   forall e, In e m -> 1.5 <= distanceTo target (snd e)) \/
  (exists e, In e m /\
     closestScan target m = (distanceTo target (snd e), Some (fst e)) /\
     distanceTo target (snd e) < 1.5 /\
     forall e', In e' m -> distanceTo target (snd e) <= distanceTo target (snd e')).
Proof.
  destruct (closestScan_from target m (1.5, None) (closestScan target m)
              eq_refl) as (H1 & H2 & [H3 | (e & He & H3 & Hd)]).
  - left. rewrite H3 in *. cbn [fst] in *. auto.
  - right. exists e. rewrite H3 in *. cbn [fst] in *. auto.
Qed.

Lemma minScan_from (target : Vec3) (m : list (nat * Vec3)) :
  forall acc res : R,
    fold_left
      (fun min entry =>
         let d := distanceTo target (snd entry) in
         if Rlt_dec d min then d else min)
      m acc = res ->
    res <= acc /\
    (forall e, In e m -> res <= distanceTo target (snd e)) /\
    (res = acc \/ exists e, In e m /\ res = distanceTo target (snd e)).
Proof.
  induction m as [| a m IH]; intros acc res Hres; cbn [fold_left] in Hres.
  - subst res. split; [lra |]. split; [intros e [] | left; reflexivity].
  - cbv zeta in Hres.
    destruct (Rlt_dec (distanceTo target (snd a)) acc) as [Hlt | Hge].
    + destruct (IH _ _ Hres) as (H1 & H2 & H3).
      split; [lra |]. split.
      * intros e [<- | He]; [exact H1 | apply H2, He].
      * right. destruct H3 as [-> | (e & He & ->)].
        -- exists a. split; [left; reflexivity | reflexivity].
        -- exists e. split; [right; exact He | reflexivity].
    + destruct (IH _ _ Hres) as (H1 & H2 & H3).
      split; [exact H1 |]. split.
      * intros e [<- | He]; [lra | apply H2, He].
      * destruct H3 as [-> | (e & He & ->)]; [left; reflexivity |].
        right. exists e. split; [right; exact He | reflexivity].
Qed.

(** ** The blocks and their reported positions *)

Lemma scene_bodies (s : State) :
  map fst (bodies s) = INITIAL_BLOCKS ->
  exists x1 x2,
    bodies s = [ (mkBlock 1 (vec3 4 0.5 4), x1);
                 (mkBlock 2 (vec3 4 0.5 (-2)), x2) ].
Proof.
  unfold INITIAL_BLOCKS.
  destruct (bodies s) as [| [b1 x1] [| [b2 x2] [| e l]]]; cbn [map fst];
    intros H; try discriminate H.
  injection H as -> ->. exists x1, x2. reflexivity.
Qed.

Lemma multi_step_positions (r : State) (o : Op) :
  match o with
  | BlockTick => True
  | _ => blockPositions (step r o) = blockPositions r
  end.
Proof. destruct o; [| exact I | ..]; by_cases r; reflexivity. Qed.

Lemma multi_step_targetBlock (r : State) (o : Op) :
  targetBlockIdForAuto (step r o) = targetBlockIdForAuto r.
Proof. destruct o; by_cases r; reflexivity. Qed.

Lemma blockTick_reports (r : State) :
  map fst (bodies r) = INITIAL_BLOCKS -> knownBlocks r ->
  blockPositions (blockTick r)
  = map (fun e => (id (fst e), position (snd e))) (bodies (blockTick r)).
Proof.
  intros Hb Hk. destruct (scene_bodies r Hb) as (x1 & x2 & E).
  unfold blockTick. fields. rewrite E. cbn [map fst snd id fold_left].
  destruct Hk as [-> | Hk]; [reflexivity |].
  destruct (blockPositions r) as [| [k1 q1] [| [k2 q2] [| e l]]];
    cbn [map fst INITIAL_BLOCKS id] in Hk; try discriminate Hk.
  injection Hk as -> ->. reflexivity.
Qed.

Lemma multi_step_knownBlocks (r : State) (o : Op) :
  map fst (bodies r) = INITIAL_BLOCKS ->
  knownBlocks r -> knownBlocks (step r o).
Proof.
  intros Hb Hk. pose proof (multi_step_positions r o) as Hq.
  destruct o; try (unfold knownBlocks; rewrite Hq; exact Hk).
  cbn [step]. right. rewrite (blockTick_reports r Hb Hk).
  rewrite map_map. cbn [fst].
  change (bodies (blockTick r)) with (bodies (step r BlockTick)).
  rewrite <- (map_map fst id), step_bodies, Hb. reflexivity.
Qed.

(** ** What can get attached *)

Lemma tryGrabClosest_refined (r s : State) :
  tryGrabClosest r s = setIsGripping true s \/
  exists e, In e (blockPositions r) /\
            tryGrabClosest r s
            = setAttachedBlockId (Some (fst e)) (setIsGripping true s).
Proof.
  unfold tryGrabClosest.
  destruct (closestScan_spec (ikTarget r) (blockPositions r))
    as [(-> & _) | (e & He & -> & _)]; cbn [snd].
  - left. reflexivity.
  - destruct (truthy (Some (fst e)));
      [right; exists e; auto | left; reflexivity].
Qed.

Ltac refined_cases :=
  repeat first
    [ match goal with
      | |- context [telemetry ?a ?b ?c ?d ?e] =>
          destruct (multi_telemetry_shape a b c d e) as [-> | [? ->]]
      | |- context [moveTowards ?a ?b ?c ?d] =>
          destruct (moveTowards_shape a b c d) as [? ->]
      | |- context [tryGrabClosest ?a ?b] =>
          destruct (tryGrabClosest_refined a b) as [-> | (? & ? & ->)]
      | |- context [handleTargetMove ?a ?b] =>
          destruct (multi_handleTargetMove_shape a b) as [? ->]
      end
    | match goal with
      | |- context [match ?x with _ => _ end] =>
          lazymatch x with
          | context [match _ with _ => _ end] => fail
          | _ => destruct x eqn:?
          end
      end ].

Lemma multi_step_attachment (r : State) (o : Op) :
  attachedBlockId (step r o) = attachedBlockId r \/
  attachedBlockId (step r o) = None \/
  attachedBlockId (step r o) = Some (targetBlockIdForAuto r) \/
  exists e, In e (blockPositions r) /\
            attachedBlockId (step r o) = Some (fst e).
Proof.
  destruct o; open_step;
    destruct (mode r) eqn:?; cbn [mode_eqb andb];
    destruct (autoPhase r) eqn:?; cbn [phase_eqb negb];
    refined_cases; fields;
    solve [ left; reflexivity | right; left; reflexivity
          | right; right; left; reflexivity
          | right; right; right; eexists; split; [eassumption | reflexivity] ].
Qed.

Lemma known_key (s : State) (e : nat * Vec3) :
  knownBlocks s -> In e (blockPositions s) ->
  exists b, In b INITIAL_BLOCKS /\ fst e = id b.
Proof.
  intros [Hk | Hk] He; [rewrite Hk in He; destruct He |].
  apply (in_map fst) in He. rewrite Hk in He.
  apply in_map_iff in He. destruct He as (b & Hb & Hin).
  exists b. auto.
Qed.

Lemma multi_step_validAttachment (r : State) (o : Op) :
  knownBlocks r -> targetBlockIdForAuto r = 1%nat ->
  validAttachment r -> validAttachment (step r o).
Proof.
  intros Hk Ht Hv. unfold validAttachment.
  destruct (multi_step_attachment r o) as [-> | [-> | [-> | (e & He & ->)]]].
  - exact Hv.
  - left. reflexivity.
  - right. rewrite Ht. exists (mkBlock 1 (vec3 4 0.5 4)).
    split; [left; reflexivity | reflexivity].
  - right. destruct (known_key r e Hk He) as (b & Hb & ->). exists b. auto.
Qed.

Lemma multi_run_scene (ops : list Op) :
  let s := run ops initial in
  map fst (bodies s) = INITIAL_BLOCKS /\ knownBlocks s /\
  targetBlockIdForAuto s = 1%nat /\ validAttachment s.
Proof.
  apply (multi_run_invariant
           (fun s => map fst (bodies s) = INITIAL_BLOCKS /\ knownBlocks s /\
                     targetBlockIdForAuto s = 1%nat /\ validAttachment s)).
  - intros r o (Hb & Hk & Ht & Hv).
    split; [rewrite step_bodies; exact Hb |].
    split; [apply multi_step_knownBlocks; assumption |].
    split; [rewrite multi_step_targetBlock; exact Ht |].
    apply multi_step_validAttachment; assumption.
  - repeat split; try reflexivity; left; reflexivity.
Qed.

End MultiScene.

Module MultiSceneExtras.

Import Multi MultiFacts MultiMore MultiScene.

(** X18: after the blocks have run a frame, the controller's map of
    block positions has exactly one entry per block, in block order,
    holding the block's current position; this holds after any history
    of frames and operator actions. *)
Theorem block_positions_reported (ops : list Op) :
  let s := step (run ops initial) BlockTick in
  blockPositions s
  = map (fun e => (id (fst e), position (snd e))) (bodies s).
Proof.
  cbv zeta. destruct (multi_run_scene ops) as (Hb & Hk & _).
  cbn [step]. apply blockTick_reports; assumption.
Qed.

(** X22: in every state reached from the initial one the attachment is
    null or the id of one of the two blocks, every reported position
    belongs to one of the blocks, and the truthiness tests of the code on
    the attachment agree with tests against null (no block has id 0). *)
Theorem attachment_names_a_block (ops : list Op) :
  let s := run ops initial in
  validAttachment s /\
  (forall e, In e (blockPositions s) ->
             exists b, In b INITIAL_BLOCKS /\ fst e = id b) /\
  (truthy (attachedBlockId s) = true <-> attachedBlockId s <> None).
Proof.
  cbv zeta. destruct (multi_run_scene ops) as (_ & Hk & _ & Hv).
  split; [exact Hv |]. split.
  - intros e He. apply (known_key _ e Hk He).
  - destruct Hv as [-> | (b & Hb & ->)].
    + cbn [truthy]. split; [discriminate | congruence].
    + cbn [INITIAL_BLOCKS In] in Hb.
      destruct Hb as [<- | [<- | []]]; cbn [id truthy];
        split; try reflexivity; discriminate.
Qed.



(** X20: the proximity read-out.  [getMinDist] is the least distance
    from the target to a reported block position when some block is
    nearer than 99, and 0 when there is no reported position or none is
    nearer than 99; it is never negative. *)
Theorem getMinDist_spec (r : State) :
  ((forall e, In e (blockPositions r) ->
              99 <= distanceTo (ikTarget r) (snd e)) ->
   getMinDist r = 0) /\
  ((exists e, In e (blockPositions r) /\
              distanceTo (ikTarget r) (snd e) < 99) ->
   (exists e, In e (blockPositions r) /\
              getMinDist r = distanceTo (ikTarget r) (snd e)) /\
   (forall e, In e (blockPositions r) ->
              getMinDist r <= distanceTo (ikTarget r) (snd e))) /\
  0 <= getMinDist r.
Proof.
  unfold getMinDist. cbv zeta.
  set (res := fold_left _ (blockPositions r) 99).
  destruct (minScan_from (ikTarget r) (blockPositions r) 99 res eq_refl)
    as (Hle & Hmin & Hsrc).
  split; [| split].
  - intros Hfar.
    destruct (Req_dec_T res 99) as [_ | Hne]; [reflexivity |].
    destruct Hsrc as [E | (e & He & E)]; [contradiction |].
    specialize (Hfar e He). lra.
  - intros (e & He & Hnear). specialize (Hmin e He) as Hres.
    destruct (Req_dec_T res 99) as [E | Hne]; [lra |].
    split; [| exact Hmin].
    destruct Hsrc as [E | (e' & He' & E)]; [contradiction |].
    exists e'. auto.
  - destruct (Req_dec_T res 99) as [_ | Hne]; [lra |].
    destruct Hsrc as [E | (e & He & E)]; [contradiction |].
    rewrite E. apply distanceTo_nonneg.
Qed.

(** X21: RESET after any history puts the scene back: manual mode, idle
    phase, gripper open, nothing attached, target at (2, 2, 2), empty
    program, and every block at its initial place at rest.  It does not
    touch the arm: rendered and commanded angles, the telemetry and the
    frame counter are kept, and so is the map of reported positions
    until the blocks run their next frame. *)
Theorem reset_restores_scene (ops : list Op) :
  let r := run ops initial in
  let s := step r ClickReset in
  mode s = MANUAL /\ autoPhase s = IDLE /\ isGripping s = false /\
  attachedBlockId s = None /\ ikTarget s = ikTarget initial /\
  waypoints s = [] /\ bodies s = bodies initial /\
  resetKey s = (resetKey r + 1)%nat /\
  smoothAngles s = smoothAngles r /\ desiredAngles s = desiredAngles r /\
  telemetryData s = telemetryData r /\ frameCount s = frameCount r /\
  blockPositions s = blockPositions r.
Proof.
  cbv zeta. destruct (multi_run_scene ops) as (Hb & _).
  destruct (scene_bodies _ Hb) as (x1 & x2 & E).
  cbn [step]. unfold handleReset. fields. rewrite E.
  repeat split; reflexivity.
Qed.




(** Frames of replay whose step is twice the distance to the waypoint. *)
Lemma replay_stalls (n : nat) :
  forall (r : State) (wp : Waypoint) (delta : R),
    mode r = REPLAY ->
    nth_error (waypoints r) (replayIndex r) = Some wp ->
    0.1 <= distanceTo (ikTarget r) (pos wp) ->
    4 * delta = 2 * distanceTo (ikTarget r) (pos wp) ->
    let s := run (map Frame (repeat delta n)) r in
    mode s = REPLAY /\ waypoints s = waypoints r /\
    replayIndex s = replayIndex r /\
    distanceTo (ikTarget s) (pos wp) = distanceTo (ikTarget r) (pos wp).
Proof.
  induction n as [| n IH]; intros r wp delta Hmode Hwp Hfar Hstep.
  - cbn. auto.
  - cbn [repeat map run fold_left step].
    fold (run (map Frame (repeat delta n)) (frame delta r)).
    destruct (replay_frame delta r wp Hmode Hwp) as (Hm & Hw & Ht & Hi).
    destruct (Rlt_dec (distanceTo (ikTarget r) (pos wp)) 0.1) as [H | _];
      [lra |].
    assert (Hd : distanceTo (ikTarget (frame delta r)) (pos wp)
                 = distanceTo (ikTarget r) (pos wp)).
    { rewrite Ht, step_towards_distance by lra. rewrite Hstep.
      rewrite Rabs_left1 by lra. lra. }
    destruct (IH (frame delta r) wp delta) as (H1 & H2 & H3 & H4).
    + exact Hm.
    + rewrite Hw, Hi. exact Hwp.
    + rewrite Hd. exact Hfar.
    + rewrite Hd. exact Hstep.
    + cbv zeta. repeat split; congruence.
Qed.

(** X17: replay makes no progress at a low frame rate.  If the target
    is at distance D >= 0.1 from the current waypoint and every frame
    lasts D / 2 seconds, each frame carries the target over the waypoint
    to the same distance on the other side: after any number of such
    frames the replay is still at the same waypoint, at distance D. *)
Theorem replay_can_stall (n : nat) (r : State) (wp : Waypoint) :
  mode r = REPLAY ->
  nth_error (waypoints r) (replayIndex r) = Some wp ->
  0.1 <= distanceTo (ikTarget r) (pos wp) ->
  let delta := distanceTo (ikTarget r) (pos wp) / 2 in
  let s := run (map Frame (repeat delta n)) r in
  mode s = REPLAY /\ replayIndex s = replayIndex r /\
  distanceTo (ikTarget s) (pos wp) = distanceTo (ikTarget r) (pos wp).
Proof.
  intros Hmode Hwp Hfar. cbv zeta.
  destruct (replay_stalls n r wp (distanceTo (ikTarget r) (pos wp) / 2))
    as (H1 & _ & H2 & H3); try assumption; [lra |].
  auto.
Qed.

Lemma unit_gap : distanceTo (vec3 2 2 2) (vec3 2 2 3) = 1.
Proof.
  unfold distanceTo. cbv zeta. cbn [vx vy vz].
  replace ((2 - 2) * (2 - 2) + (2 - 2) * (2 - 2) + (2 - 3) * (2 - 3))
    with 1 by ring.
  apply sqrt_1.
Qed.

Lemma replay_can_stall_witness :
  let r := setMode REPLAY
             (setWaypoints [mkWaypoint (vec3 2 2 3) false] initial) in
  let wp := mkWaypoint (vec3 2 2 3) false in
  let delta := distanceTo (ikTarget r) (pos wp) / 2 in
  let s := run (map Frame (repeat delta 7)) r in
  mode s = REPLAY /\ replayIndex s = replayIndex r /\
  distanceTo (ikTarget s) (pos wp) = distanceTo (ikTarget r) (pos wp).
Proof.
  apply (replay_can_stall 7
           (setMode REPLAY
              (setWaypoints [mkWaypoint (vec3 2 2 3) false] initial))
           (mkWaypoint (vec3 2 2 3) false)).
  - reflexivity.
  - reflexivity.
  - cbn [ikTarget setMode setWaypoints initial pos]. rewrite unit_gap. lra.
Defined.

End MultiSceneExtras.

Lemma initial_block_out_of_reach :
  ~ distanceTo (vec3 2 2 2) (vec3 4 0.5 4) < 1.5.
Proof.
  unfold distanceTo. cbv zeta. cbn [vx vy vz].
  intros H. apply Rlt_not_le in H. apply H.
  rewrite <- (sqrt_square 1.5) at 1 by lra.
  apply sqrt_le_1_alt. lra.
Qed.

Module GripExtras.

Import MultiFacts MultiMore.

(** X23: an empty grasp cannot be released by the operator.  On both
    pages, once the gripper is closed with no block held, every step
    leaves it closed, except the frame that ends the lowering phase of
    the automatic sequence and, on the multi-block page, a frame of
    replay and RESET: the gripper button only tries to grab again.  Such
    a state is reached by pressing the button once at the start. *)
Theorem empty_grasp_stays_closed :
  (forall (r : Single.State) (o : Single.Op),
      Single.hasBlock r = false -> Single.isGripping r = true ->
      Single.isGripping (Single.step r o) = true \/
      (exists delta, o = Single.Frame delta /\
                     Single.autoPhase r = LOWER_TO_DROP)) /\
  (forall (r : Multi.State) (o : Multi.Op),
      Multi.attachedBlockId r = None -> Multi.isGripping r = true ->
      Multi.isGripping (Multi.step r o) = true \/
      o = Multi.ClickReset \/
      (exists delta, o = Multi.Frame delta /\
                     (Multi.mode r = Multi.REPLAY \/
                      Multi.autoPhase r = LOWER_TO_DROP))) /\
  (let s := Single.step Single.initial Single.ClickGripper in
   Single.isGripping s = true /\ Single.hasBlock s = false) /\
  (let s := Multi.step Multi.initial Multi.ClickGripper in
   Multi.isGripping s = true /\ Multi.attachedBlockId s = None).
Proof.
  split; [| split; [| split]].
  - intros r o Hb Hg.
    destruct o as [delta | | p | |].
    + destruct (phase_eqb (Single.autoPhase r) LOWER_TO_DROP) eqn:Hp.
      * right. exists delta. split; [reflexivity |].
        destruct (Single.autoPhase r); try discriminate; reflexivity.
      * left. revert Hb Hg Hp. SingleFacts.by_cases r;
          intros Hb Hg Hp; solve [ exact Hg | reflexivity | discriminate ].
    + left. revert Hb Hg. SingleFacts.by_cases r; auto.
    + left. revert Hb Hg. SingleFacts.by_cases r; auto.
    + left. revert Hb Hg. SingleFacts.by_cases r;
        intros; solve [ assumption | reflexivity | congruence ].
    + left. revert Hb Hg. SingleFacts.by_cases r;
        intros; solve [ assumption | reflexivity | congruence ].
  - intros r o Ha Hg.
    destruct o as [delta | | p | | | | |].
    + destruct (Multi.mode_eqb (Multi.mode r) Multi.REPLAY) eqn:Hm.
      { right; right. exists delta. split; [reflexivity |]. left.
        destruct (Multi.mode r); try discriminate; reflexivity. }
      destruct (phase_eqb (Multi.autoPhase r) LOWER_TO_DROP) eqn:Hp.
      { right; right. exists delta. split; [reflexivity |]. right.
        destruct (Multi.autoPhase r); try discriminate; reflexivity. }
      left. revert Ha Hg Hm Hp. by_cases r;
        intros Ha Hg Hm Hp;
        solve [ exact Hg | reflexivity | discriminate ].
    + left. revert Ha Hg. by_cases r; auto.
    + left. revert Ha Hg. by_cases r; auto.
    + left. revert Ha Hg. by_cases r; auto.
    + left. cbn [Multi.step]. unfold Multi.toggleGripper.
      rewrite Ha. cbn [Multi.truthy]. cases; fields; reflexivity.
    + right; left. reflexivity.
    + left. revert Ha Hg. by_cases r; auto.
    + left. revert Ha Hg. by_cases r; auto.
  - cbv zeta. cbn [Single.step]. unfold Single.isAuto, Single.toggleGripper.
    cbn [Single.initial Single.autoPhase Single.hasBlock phase_eqb negb
         Single.ikTarget Single.blockPosRef].
    destruct (Rlt_dec _ _) as [H | _];
      [exfalso; exact (initial_block_out_of_reach H) |].
    split; reflexivity.
  - exact empty_grasp.
Qed.



End GripExtras.
